(** * Record linkage: the MPI models and the linkage helpers

    A shallow embedding of [src/recordlinker/models/mpi.py]: [Person]
    equality and hashing, the scrubbing of the data that a [Patient] stores,
    the [Patient.record] property and the [BlockingKey] derivations.
    [PIIRecord] (models/pii.py) and the helpers of linkage/link.py that the
    unit tests exercise ([generate_hash_str], [score_linkage_vs_truth],
    [read_linkage_config] and [write_linkage_config]) follow the
    specification; their definitions say so.  Python's [json] and
    [hashlib.sha256] are modelled by a printer and a parser of JSON text and
    by SHA-256 on byte lists.

    The definitions come first, the properties after them. *)

From Stdlib Require Import ZArith QArith Qround Ascii String List Bool Lia.
From Stdlib Require Import DecimalString DecimalPos DecimalZ.
From stdpp Require Import gmap strings list sets.

Local Open Scope string_scope.
Set Warnings "-register-all".
Set Default Proof Using "Type".

(** ** Python values *)

(** What [json.loads] returns: [None], booleans, numbers, strings, lists and
    dicts.  A number [JNum m e] stands for [m * 10^e]; a dict keeps its items
    in insertion order, as Python does. *)
Inductive json : Type :=
| JNull
| JBool (b : bool)
| JNum (m e : Z)
| JStr (s : string)
| JList (l : list json)
| JDict (d : list (string * json)).

(** The exception classes that the modelled code raises or lets through. *)
Inductive exn : Type :=
| RuntimeError
| ValueError
| TypeError
| ValidationError
| FileNotFoundError
| JSONDecodeError
| ZeroDivisionError
| InvalidConfig.

(** A call either returns a value or raises. *)
Inductive outcome (A : Type) : Type :=
| Returns (a : A)
| Raises (e : exn).
Arguments Returns {A} a.
Arguments Raises {A} e.

#[global] Instance outcome_ret : MRet outcome := fun A a => Returns a.
#[global] Instance outcome_bind : MBind outcome := fun A B k o =>
  match o with
  | Returns a => k a
  | Raises e => Raises e
  end.

(** Python truthiness of a loaded JSON value ([if self.data:]). *)
Definition truthy (v : json) : bool :=
  match v with
  | JNull => false
  | JBool b => b
  | JNum m _ => negb (m =? 0)%Z
  | JStr s => negb (String.eqb s "")
  | JList l => negb (Nat.eqb (length l) 0)
  | JDict d => negb (Nat.eqb (length d) 0)
  end.

(** ** Python strings *)

(** [x[:n]] *)
Fixpoint str_prefix (n : nat) (x : string) : string :=
  match n, x with
  | S n', String c x' => String c (str_prefix n' x')
  | _, _ => EmptyString
  end.

(** [x[n:]] for a non-negative [n] *)
Fixpoint str_from (n : nat) (x : string) : string :=
  match n, x with
  | S n', String _ x' => str_from n' x'
  | _, _ => x
  end.

(** [x[-n:]]: the last [n] characters, the whole string when it is shorter. *)
Definition str_suffix (n : nat) (x : string) : string :=
  str_from (String.length x - n) x.

(** [str.isspace] on one character (8-bit code points). *)
Definition is_space (c : ascii) : bool :=
  let n := nat_of_ascii c in
  ((9 <=? n)%nat && (n <=? 13)%nat) || ((28 <=? n)%nat && (n <=? 32)%nat)
  || (n =? 133)%nat || (n =? 160)%nat.

Fixpoint all_space (x : string) : bool :=
  match x with
  | EmptyString => true
  | String c x' => is_space c && all_space x'
  end.

(** Empty, or made of whitespace only: what [x.strip()] turns into [""]. *)
Definition blank (x : string) : bool := all_space x.

(** ** [Person] *)

Module Person.

(** The columns of [mpi_person]. *)
Record t : Type := mk { id : Z; internal_id : string }.

(** What a person may be compared with: another person, or anything
    else. *)
Inductive object : Type :=
| IsPerson (p : t)
| Other.

Section Hash.
(** Python's [hash] on integers. *)
Variable hash : Z -> Z.

(** [Person.__hash__] *)
Definition __hash__ (self : t) : Z := hash (id self).
End Hash.

(** [Person.__eq__] *)
Definition __eq__ (self : t) (other : object) : bool :=
  match other with
  | IsPerson o => (id self =? id o)%Z
  | Other => false
  end.

End Person.

(** ** [Patient] *)

Module Patient.

(** The inner [is_empty] of [_scrub_empty]. *)
Definition is_empty (value : json) : bool :=
  match value with
  | JNull => true
  | JList [] => true
  | JDict [] => true
  | _ => false
  end.

(** [Patient._scrub_empty]: both comprehensions test [is_empty] on the
    value as it is in [data], and recurse on the values they keep. *)
Fixpoint _scrub_empty (data : json) : json :=
  match data with
  | JDict d =>
      JDict (omap (fun kv : string * json =>
                     if is_empty (snd kv) then None
                     else Some (fst kv, _scrub_empty (snd kv))) d)
  | JList l =>
      JList (omap (fun v => if is_empty v then None
                            else Some (_scrub_empty v)) l)
  | _ => data
  end.

(** The columns of [mpi_patient]; [data] is [JNull] until it is set. *)
Record t : Type := mk {
  id : Z;
  person_id : Z;
  data : json;
  external_patient_id : option string;
  external_person_id : option string;
  external_person_source : option string
}.

Section Record_property.
(** [PIIRecord] lives in [models/pii.py]; its constructor and its JSON
    dump are taken as they come. *)
Context {PIIRecord : Type}.
Variable PIIRecord_init : list (string * json) -> outcome PIIRecord.
Variable model_dump_json : PIIRecord -> json.

(** The getter of [Patient.record]. *)
Definition record (self : t) : outcome (option PIIRecord) :=
  if truthy (data self) then
    match data self with
    | JDict d => r ← PIIRecord_init d; Returns (Some r)
    | _ => Raises TypeError
    end
  else Returns None.

(** The setter of [Patient.record]. *)
Definition set_record (self : t) (value : PIIRecord) : t :=
  let data := model_dump_json value in
  {| id := id self; person_id := person_id self;
     data := _scrub_empty data;
     external_patient_id := external_patient_id self;
     external_person_id := external_person_id self;
     external_person_source := external_person_source self |}.
End Record_property.

End Patient.

(** Some value strictly inside [v] is a null, an empty list or an empty
    dict. *)
Fixpoint has_empty (v : json) : bool :=
  match v with
  | JList l => existsb (fun x => Patient.is_empty x || has_empty x) l
  | JDict d => existsb (fun kv => Patient.is_empty (snd kv) || has_empty (snd kv)) d
  | _ => false
  end.

(** Some value strictly inside [v] is a null. *)
Fixpoint has_null (v : json) : bool :=
  match v with
  | JList l => existsb (fun x => match x with JNull => true | _ => has_null x end) l
  | JDict d => existsb (fun kv => match snd kv with JNull => true | _ => has_null (snd kv) end) d
  | _ => false
  end.

(** [x.strip() == x] and [x] is not empty: [x] starts and ends with a
    character that is not whitespace. *)
Fixpoint last_char (x : string) : option ascii :=
  match x with
  | EmptyString => None
  | String c EmptyString => Some c
  | String _ x' => last_char x'
  end.

Definition first_char (x : string) : option ascii :=
  match x with
  | EmptyString => None
  | String c _ => Some c
  end.

Definition stripped (x : string) : bool :=
  match first_char x, last_char x with
  | Some a, Some b => negb (is_space a) && negb (is_space b)
  | _, _ => false
  end.

(** ** The PII record, as far as the stored data and the blocking keys see it *)

(** [models/pii.py] is not among the sources: this module follows the data
    model and the [field_iter] contract of the specification. *)
Module PII.

(** Modelled from the spec: the sex of a record, one of three codes. *)
Inductive Sex : Type := MALE | FEMALE | UNKNOWN.

(** Modelled from the spec: a name, an address and a telecom of a record. *)
Record Name : Type := { family : string; given : list string }.

Record Address : Type := {
  line : list string;
  city : option string;
  state : option string;
  postal_code : option string;
  country : option string
}.

Record Telecom : Type := { value : string }.

(** A calendar date, with a year of 1 to 9999 as Python's [datetime.date]. *)
Record date : Type := { year : nat; month : nat; day : nat }.

(** Modelled from the spec: the fields of [PIIRecord] (models/pii.py is not
    among the sources), as the data model lists them; an absent field is
    [None]. *)
Record PIIRecord : Type := {
  external_id : option string;
  birth_date : option date;
  sex : option Sex;
  mrn : option string;
  name : list Name;
  address : list Address;
  telecom : list Telecom
}.

Definition digit (n : nat) : ascii := ascii_of_nat (48 + n mod 10).

(** ISO "YYYY-MM-DD". *)
Definition isoformat (d : date) : string :=
  String (digit (year d / 1000)) (String (digit (year d / 100))
 (String (digit (year d / 10)) (String (digit (year d))
 (String "-" (String (digit (month d / 10)) (String (digit (month d))
 (String "-" (String (digit (day d / 10)) (String (digit (day d))
  EmptyString))))))))).

(** The single-letter code of a sex. *)
Definition sex_letter (s : Sex) : string :=
  match s with MALE => "M" | FEMALE => "F" | UNKNOWN => "U" end.

(** Modelled from the spec: the features that the matchers address. *)
Inductive Feature : Type :=
| BIRTHDATE | MRN | SEX | FIRST_NAME | LAST_NAME | ADDRESS | CITY | STATE | ZIPCODE.

(** The names under which the callers ask for a feature ([to_value] in
    mpi.py, the blocking filters of the tests). *)
Definition feature_of (field : string) : option Feature :=
  if String.eqb field "birthdate" then Some BIRTHDATE
  else if String.eqb field "mrn" then Some MRN
  else if String.eqb field "sex" then Some SEX
  else if String.eqb field "first_name" then Some FIRST_NAME
  else if String.eqb field "last_name" then Some LAST_NAME
  else if String.eqb field "address" then Some ADDRESS
  else if String.eqb field "city" then Some CITY
  else if String.eqb field "state" then Some STATE
  else if String.eqb field "zip" then Some ZIPCODE
  else None.

Definition opt_list {A} (o : option A) : list A :=
  match o with Some a => [a] | None => [] end.

(** Modelled from the spec: [PIIRecord.field_iter] (models/pii.py is not
    among the sources).  The values of a feature, in the order of the
    underlying collections and with duplicates kept; a name that is not a
    feature is refused. *)
Definition field_iter (self : PIIRecord) (field : string) : outcome (list string) :=
  match feature_of field with
  | None => Raises ValueError
  | Some BIRTHDATE => Returns (isoformat <$> opt_list (birth_date self))
  | Some MRN => Returns (opt_list (mrn self))
  | Some SEX => Returns (sex_letter <$> opt_list (sex self))
  | Some FIRST_NAME => Returns (concat (given <$> name self))
  | Some LAST_NAME => Returns (family <$> name self)
  | Some ADDRESS => Returns (concat ((fun a => opt_list (head (line a))) <$> address self))
  | Some CITY => Returns (concat ((fun a => opt_list (city a)) <$> address self))
  | Some STATE => Returns (concat ((fun a => opt_list (state a)) <$> address self))
  | Some ZIPCODE =>
      Returns (concat ((fun a => str_prefix 5 <$> opt_list (postal_code a)) <$> address self))
  end.

Definition opt_json (o : option string) : json :=
  match o with Some s => JStr s | None => JNull end.

Definition dump_name (n : Name) : json :=
  JDict [("family", JStr (family n)); ("given", JList (JStr <$> given n))].

Definition dump_address (a : Address) : json :=
  JDict [("line", JList (JStr <$> line a)); ("city", opt_json (city a));
         ("state", opt_json (state a)); ("postal_code", opt_json (postal_code a));
         ("country", opt_json (country a))].

Definition dump_telecom (t : Telecom) : json := JDict [("value", JStr (value t))].

(** Modelled from the spec: [json.loads(value.model_dump_json())], every
    field of the data model under its name, an absent one as [null]. *)
Definition model_dump_json (self : PIIRecord) : json :=
  JDict [("external_id", opt_json (external_id self));
         ("birth_date", opt_json (isoformat <$> birth_date self));
         ("sex", opt_json (sex_letter <$> sex self));
         ("mrn", opt_json (mrn self));
         ("name", JList (dump_name <$> name self));
         ("address", JList (dump_address <$> address self));
         ("telecom", JList (dump_telecom <$> telecom self))].

End PII.

(** ** [BlockingKey] *)

Definition BLOCKING_VALUE_MAX_LENGTH : nat := 20.

Module BlockingKey.

Inductive t : Type := BIRTHDATE | MRN | SEX | ZIP | FIRST_NAME | LAST_NAME.

Definition id (self : t) : Z :=
  match self with
  | BIRTHDATE => 1 | MRN => 2 | SEX => 3 | ZIP => 4 | FIRST_NAME => 5 | LAST_NAME => 6
  end%Z.

Definition description (self : t) : string :=
  match self with
  | BIRTHDATE => "Date of Birth"
  | MRN => "Last 4 chars of MRN"
  | SEX => "Sex"
  | ZIP => "Zip Code"
  | FIRST_NAME => "First 4 chars of First Name"
  | LAST_NAME => "First 4 chars of Last Name"
  end.

Section To_value.
(** [record.field_iter] belongs to [PIIRecord]; what it yields for a
    name, or the exception that it raises, is all [to_value] sees. *)
Context {PIIRecord : Type}.
Variable field_iter : PIIRecord -> string -> outcome (list string).

(** The [if]/[elif] chain: [vals] once the branch of [self] has run. *)
Definition derived (self : t) (record : PIIRecord) : outcome (gset string) :=
  match self with
  | BIRTHDATE => xs ← field_iter record "birthdate"; Returns (∅ ∪ list_to_set xs)
  | MRN => xs ← field_iter record "mrn"; Returns (∅ ∪ list_to_set (str_suffix 4 <$> xs))
  | SEX => xs ← field_iter record "sex"; Returns (∅ ∪ list_to_set xs)
  | ZIP => xs ← field_iter record "zip"; Returns (∅ ∪ list_to_set xs)
  | FIRST_NAME =>
      xs ← field_iter record "first_name"; Returns (∅ ∪ list_to_set (str_prefix 4 <$> xs))
  | LAST_NAME =>
      xs ← field_iter record "last_name"; Returns (∅ ∪ list_to_set (str_prefix 4 <$> xs))
  end.

(** [any(len(x) > BLOCKING_VALUE_MAX_LENGTH for x in vals)] *)
Definition too_long (vals : gset string) : bool :=
  existsb (fun x => BLOCKING_VALUE_MAX_LENGTH <? String.length x)%nat (elements vals).

(** [BlockingKey.to_value] *)
Definition to_value (self : t) (record : PIIRecord) : outcome (gset string) :=
  vals ← derived self record;
  if too_long vals then Raises RuntimeError else Returns vals.
End To_value.

End BlockingKey.

(** What [to_value] does to each value of a key: the last four characters
    of an MRN, the first four of a name, the value itself otherwise. *)
Definition cut (self : BlockingKey.t) : string -> string :=
  match self with
  | BlockingKey.MRN => str_suffix 4
  | BlockingKey.FIRST_NAME | BlockingKey.LAST_NAME => str_prefix 4
  | _ => fun x => x
  end.

(** The field that a key reads. *)
Definition field_name (self : BlockingKey.t) : string :=
  match self with
  | BlockingKey.BIRTHDATE => "birthdate"
  | BlockingKey.MRN => "mrn"
  | BlockingKey.SEX => "sex"
  | BlockingKey.ZIP => "zip"
  | BlockingKey.FIRST_NAME => "first_name"
  | BlockingKey.LAST_NAME => "last_name"
  end.

(** ** Sample records *)

(** The dump of a record whose only address has no field set. *)
Definition bare_address : json :=
  JDict [("address",
          JList [JDict [("line", JList []); ("city", JNull); ("state", JNull);
                        ("postal_code", JNull); ("country", JNull)]])].

(** A record with one address, none of whose fields is set. *)
Definition record_with_bare_address : PII.PIIRecord :=
  {| PII.external_id := None; PII.birth_date := None; PII.sex := None;
     PII.mrn := None; PII.name := [];
     PII.address := [ {| PII.line := []; PII.city := None; PII.state := None;
                         PII.postal_code := None; PII.country := None |} ];
     PII.telecom := [] |}.

(** The record of [test_field_iter]. *)
Definition doe_smith : PII.PIIRecord :=
  {| PII.external_id := Some "99";
     PII.birth_date := Some {| PII.year := 1980; PII.month := 2; PII.day := 1 |};
     PII.sex := Some PII.MALE;
     PII.mrn := Some "123456";
     PII.name := [ {| PII.family := "Doe"; PII.given := ["John"; "L"] |};
                   {| PII.family := "Smith"; PII.given := ["Jane"] |} ];
     PII.address :=
       [ {| PII.line := ["123 Main St"]; PII.city := Some "Anytown";
            PII.state := Some "NY"; PII.postal_code := Some "12345";
            PII.country := Some "US" |};
         {| PII.line := ["456 Elm St"; "Apt 2"]; PII.city := Some "Somecity";
            PII.state := Some "CA"; PII.postal_code := Some "98765-4321";
            PII.country := Some "US" |} ];
     PII.telecom := [ {| PII.value := "555-123-4567" |}; {| PII.value := "555-987-6543" |} ] |}.

(** A record whose names share their first four characters. *)
Definition jonathans : PII.PIIRecord :=
  {| PII.external_id := None; PII.birth_date := None; PII.sex := None;
     PII.mrn := Some "0042";
     PII.name := [ {| PII.family := "Doe"; PII.given := ["Jonathan"; "Jonas"] |};
                   {| PII.family := "Doerr"; PII.given := ["Jonathan"] |} ];
     PII.address := []; PII.telecom := [] |}.

(** ** SHA-256 ([hashlib.sha256]) *)

Module SHA256.

Local Open Scope Z_scope.

(** 32-bit words are integers taken modulo [2^32]. *)
Definition w32 (x : Z) : Z := x mod 2 ^ 32.

Definition add32 (x y : Z) : Z := w32 (x + y).

Definition rotr (n x : Z) : Z :=
  Z.lor (Z.shiftr x n) (w32 (Z.shiftl x (32 - n))).

Definition not32 (x : Z) : Z := Z.lxor x 0xffffffff.

Definition Ch (x y z : Z) : Z := Z.lxor (Z.land x y) (Z.land (not32 x) z).

Definition Maj (x y z : Z) : Z :=
  Z.lxor (Z.lxor (Z.land x y) (Z.land x z)) (Z.land y z).

Definition Sigma0 (x : Z) : Z := Z.lxor (Z.lxor (rotr 2 x) (rotr 13 x)) (rotr 22 x).
Definition Sigma1 (x : Z) : Z := Z.lxor (Z.lxor (rotr 6 x) (rotr 11 x)) (rotr 25 x).
Definition sigma0 (x : Z) : Z := Z.lxor (Z.lxor (rotr 7 x) (rotr 18 x)) (Z.shiftr x 3).
Definition sigma1 (x : Z) : Z := Z.lxor (Z.lxor (rotr 17 x) (rotr 19 x)) (Z.shiftr x 10).

(** The integer part of the [k]-th root of [x], one bit at a time from bit
    [bits - 1] down. *)
Fixpoint iroot (k : Z) (bits : nat) (x r : Z) : Z :=
  match bits with
  | O => r
  | S bits' =>
      let r' := r + 2 ^ Z.of_nat bits' in
      iroot k bits' x (if r' ^ k <=? x then r' else r)
  end.

Definition is_prime (n : nat) : bool :=
  forallb (fun d => negb (n mod d =? 0)%nat) (seq 2 (n - 2)).

(** The primes below 312: the first 64. *)
Definition primes : list Z := map Z.of_nat (filter is_prime (seq 2 310)).

(** The first 32 bits of the fractional part of the [k]-th root of [p]. *)
Definition root_fraction (k p : Z) : Z := w32 (iroot k 40 (p * 2 ^ (32 * k)) 0).

(** The round constants, from the cube roots of the first 64 primes, and
    the initial hash value, from the square roots of the first 8. *)
Definition K : list Z := Eval vm_compute in map (root_fraction 3) primes.

Definition H0 : list Z := Eval vm_compute in map (root_fraction 2) (firstn 8 primes).

(** [n] as [k] bytes, most significant first. *)
Fixpoint be_bytes (k : nat) (n : Z) : list Z :=
  match k with
  | O => []
  | S k' => be_bytes k' (Z.shiftr n 8) ++ [Z.land n 0xff]
  end.

(** The message, a [1] bit, zeros up to 56 modulo 64 bytes, and the length
    in bits on 8 bytes. *)
Definition pad (msg : list Z) : list Z :=
  let len := Z.of_nat (length msg) in
  let zeros := Z.to_nat ((55 - len) mod 64) in
  msg ++ [0x80] ++ repeat 0 zeros ++ be_bytes 8 (8 * len).

(** Big-endian 32-bit words of a byte list (whose length is a multiple of
    four). *)
Fixpoint words (bytes : list Z) : list Z :=
  match bytes with
  | a :: b :: c :: d :: rest =>
      (Z.shiftl a 24 + Z.shiftl b 16 + Z.shiftl c 8 + d) :: words rest
  | _ => []
  end.

Definition at_ (w : list Z) (i : nat) : Z := nth i w 0.

(** The message schedule: [n] more words after those of [w]. *)
Fixpoint schedule (n : nat) (w : list Z) : list Z :=
  match n with
  | O => w
  | S n' =>
      let t := length w in
      let x := add32 (add32 (sigma1 (at_ w (t - 2))) (at_ w (t - 7)))
                     (add32 (sigma0 (at_ w (t - 15))) (at_ w (t - 16))) in
      schedule n' (w ++ [x])
  end.

Record state : Type := State { a : Z; b : Z; c : Z; d : Z; e : Z; f : Z; g : Z; h : Z }.

Definition round (s : state) (kw : Z * Z) : state :=
  let t1 := add32 (add32 (add32 (h s) (Sigma1 (e s))) (Ch (e s) (f s) (g s)))
                  (add32 (fst kw) (snd kw)) in
  let t2 := add32 (Sigma0 (a s)) (Maj (a s) (b s) (c s)) in
  State (add32 t1 t2) (a s) (b s) (c s) (add32 (d s) t1) (e s) (f s) (g s).

Definition add_state (s s' : state) : state :=
  State (add32 (a s) (a s')) (add32 (b s) (b s')) (add32 (c s) (c s'))
        (add32 (d s) (d s')) (add32 (e s) (e s')) (add32 (f s) (f s'))
        (add32 (g s) (g s')) (add32 (h s) (h s')).

(** One 64-byte block. *)
Definition compress (s : state) (block : list Z) : state :=
  let w := schedule 48 (words block) in
  add_state s (fold_left round (combine K w) s).

(** The blocks of the padded message, one after the other; [n] bounds their
    number. *)
Fixpoint blocks (n : nat) (s : state) (bytes : list Z) : state :=
  match n, bytes with
  | S n', _ :: _ => blocks n' (compress s (firstn 64 bytes)) (skipn 64 bytes)
  | _, _ => s
  end.

Definition init : state :=
  State (at_ H0 0) (at_ H0 1) (at_ H0 2) (at_ H0 3) (at_ H0 4) (at_ H0 5) (at_ H0 6) (at_ H0 7).

(** The digest, 32 bytes. *)
Definition digest (msg : list Z) : list Z :=
  let p := pad msg in
  let s := blocks (length p) init p in
  concat (map (be_bytes 4) [a s; b s; c s; d s; e s; f s; g s; h s]).

Definition hex_digit (n : Z) : ascii :=
  if n <? 10 then ascii_of_nat (Z.to_nat (48 + n)) else ascii_of_nat (Z.to_nat (87 + n)).

(** [hexdigest()]: two lowercase hexadecimal digits per byte. *)
Fixpoint hex (bytes : list Z) : string :=
  match bytes with
  | [] => EmptyString
  | x :: rest => String (hex_digit (Z.shiftr x 4)) (String (hex_digit (Z.land x 0xf)) (hex rest))
  end.

(** [str.encode("utf-8")] on 8-bit code points: one byte below 128, two
    bytes from there on. *)
Fixpoint utf8 (x : string) : list Z :=
  match x with
  | EmptyString => []
  | String ch x' =>
      let n := Z.of_nat (nat_of_ascii ch) in
      if n <? 128 then n :: utf8 x'
      else Z.lor 0xc0 (Z.shiftr n 6) :: Z.lor 0x80 (Z.land n 0x3f) :: utf8 x'
  end.

Definition hexdigest (x : string) : string := hex (digest (utf8 x)).

End SHA256.

(** Modelled from the spec: [generate_hash_str] (linkage/link.py is not
    among the sources).  A SHA-256 hex digest of the identifier and the salt;
    the identifier comes first and nothing separates the two, the order that
    gives the digests [test_generate_hash] expects. *)
Definition generate_hash_str (linking_identifier salt_str : string) : string :=
  SHA256.hexdigest (linking_identifier ++ salt_str).

(** The digest as the spec words it: the salt, a newline and the payload. *)
Definition salt_newline_payload_digest (payload salt : string) : string :=
  SHA256.hexdigest (salt ++ String (ascii_of_nat 10) payload).

(** The inputs of [test_generate_hash]. *)
Definition patient_1 : string :=
  "John-Shepard-2153/11/07-1234 Silversun Strip Boston Massachusetts 99999".
Definition patient_2 : string :=
  "Tali-Zora-Vas-Normandy-2160/05/14-PO Box 1 Rock Rannoch".
Definition salt_str : string := "super-legit-salt".

(** ** Scoring found matches against the true ones *)

(** A match map sends a record to the records matched with it; its pairs
    are the matches it holds. *)
Definition match_pairs (matches : gmap Z (gset Z)) : gset (Z * Z) :=
  map_fold (fun root others acc => set_map (fun o => (root, o)) others ∪ acc) ∅ matches.

(** [round(x, 3)], in thousandths: the nearest multiple of [0.001]. *)
Definition round3 (x : Q) : Z := Qfloor (x * 1000 + (1 # 2))%Q.

Definition quotient (n d : Z) : outcome Q :=
  if (d =? 0)%Z then Raises ZeroDivisionError else Returns (inject_Z n / inject_Z d)%Q.

Record scores : Type := Scores {
  sensitivity : Z;
  specificity : Z;
  ppv : Z;
  f1 : Z
}.

(** Modelled from the spec: [score_linkage_vs_truth] (linkage/link.py is
    not among the sources).  The spec names the four statistics and gives no
    formula; they are taken in their usual meaning over the
    [n * (n - 1) / 2] unordered pairs of the [records_in_dataset] records: a
    found pair is a true or a false positive, a true pair that was not found
    a false negative, any other pair a true negative.  Each statistic is
    rounded to three decimals and given in thousandths. *)
Definition score_linkage_vs_truth
    (found_matches true_matches : gmap Z (gset Z)) (records_in_dataset : Z)
  : outcome scores :=
  let found := match_pairs found_matches in
  let truth := match_pairs true_matches in
  let total_possible_matches := (records_in_dataset * (records_in_dataset - 1) / 2)%Z in
  let true_positives := Z.of_nat (size (found ∩ truth)) in
  let false_positives := Z.of_nat (size (found ∖ truth)) in
  let false_negatives := Z.of_nat (size (truth ∖ found)) in
  let true_negatives :=
    (total_possible_matches - true_positives - false_positives - false_negatives)%Z in
  sens ← quotient true_positives (true_positives + false_negatives);
  spec ← quotient true_negatives (true_negatives + false_positives);
  prec ← quotient true_positives (true_positives + false_positives);
  hm ← (if Qeq_bool (prec + sens)%Q 0%Q then Raises ZeroDivisionError
        else Returns (2 * prec * sens / (prec + sens))%Q);
  Returns (Scores (round3 sens) (round3 spec) (round3 prec) (round3 hm)).

(** The maps of [test_score_linkage_vs_truth]. *)
Definition test_matches : gmap Z (gset Z) :=
  list_to_map
    [ (1, {[ 5; 11; 12; 13 ]}); (5, {[ 11; 12; 13 ]}); (11, {[ 12; 13 ]}); (12, {[ 13 ]});
      (23, {[ 24; 31; 32 ]}); (24, {[ 31; 32 ]}); (31, {[ 32 ]}) ]%Z.

Definition test_true_matches : gmap Z (gset Z) :=
  list_to_map
    [ (1, {[ 5; 11; 12 ]}); (5, {[ 11; 12 ]}); (11, {[ 12 ]});
      (23, {[ 24; 31; 32 ]}); (24, {[ 31; 32 ]}); (31, {[ 32 ]}) ]%Z.

(** ** JSON text ([json.dumps] and [json.loads]) *)

Module Json.

Import Decimal.

Definition dquote : ascii := "034"%char.
Definition backslash : ascii := "092"%char.

Definition is_ws (c : ascii) : bool :=
  Ascii.eqb c " " || Ascii.eqb c "009" || Ascii.eqb c "010" || Ascii.eqb c "013".

Fixpoint skip_ws (s : string) : string :=
  match s with
  | String c r => if is_ws c then skip_ws r else s
  | EmptyString => s
  end.

(** *** Numbers *)

Definition print_int (z : Z) : string := NilEmpty.string_of_int (Z.to_int z).

(** [m * 10^e]: the digits of [m], and an exponent part unless [e] is 0. *)
Definition dumps_number (m e : Z) : string :=
  print_int m ++ (if (e =? 0)%Z then "" else String "e" (print_int e)).

Definition digit_of (c : ascii) : option (uint -> uint) :=
  if Ascii.eqb c "0" then Some D0 else if Ascii.eqb c "1" then Some D1
  else if Ascii.eqb c "2" then Some D2 else if Ascii.eqb c "3" then Some D3
  else if Ascii.eqb c "4" then Some D4 else if Ascii.eqb c "5" then Some D5
  else if Ascii.eqb c "6" then Some D6 else if Ascii.eqb c "7" then Some D7
  else if Ascii.eqb c "8" then Some D8 else if Ascii.eqb c "9" then Some D9
  else None.

(** The digits at the head of [s], and what follows them. *)
Fixpoint take_uint (s : string) : uint * string :=
  match s with
  | String c r =>
      match digit_of c with
      | Some D => let (d, r') := take_uint r in (D d, r')
      | None => (Nil, s)
      end
  | EmptyString => (Nil, s)
  end.

Definition signed (neg : bool) (n : Z) : Z := if neg then (- n)%Z else n.

(** An optional fraction: [.] and at least one digit. *)
Definition fraction (s : string) : option (uint * string) :=
  match s with
  | String c r =>
      if Ascii.eqb c "." then
        match take_uint r with
        | (Nil, _) => None
        | (f, r') => Some (f, r')
        end
      else Some (Nil, s)
  | EmptyString => Some (Nil, s)
  end.

(** An optional exponent: [e] or [E], an optional sign and at least one
    digit. *)
Definition exponent (s : string) : option (Z * string) :=
  match s with
  | String c r =>
      if Ascii.eqb c "e" || Ascii.eqb c "E" then
        let (neg, r1) :=
          match r with
          | String c1 r1 =>
              if Ascii.eqb c1 "-" then (true, r1)
              else if Ascii.eqb c1 "+" then (false, r1)
              else (false, r)
          | EmptyString => (false, r)
          end in
        match take_uint r1 with
        | (Nil, _) => None
        | (d, r2) => Some (signed neg (Z.of_uint d), r2)
        end
      else Some (0%Z, s)
  | EmptyString => Some (0%Z, s)
  end.

(** A number: an optional [-], an integer part without a leading zero, an
    optional fraction and an optional exponent. *)
Definition parse_number (s : string) : option (Z * Z * string) :=
  let (neg, s1) :=
    match s with
    | String c r => if Ascii.eqb c "-" then (true, r) else (false, s)
    | EmptyString => (false, s)
    end in
  let (i, s2) := take_uint s1 in
  if negb (uint_beq (unorm i) i) then None
  else
    match fraction s2 with
    | None => None
    | Some (f, s3) =>
        match exponent s3 with
        | None => None
        | Some (e, s4) =>
            Some (signed neg (Z.of_uint (app i f)), (e - Z.of_nat (nb_digits f))%Z, s4)
        end
    end.

(** *** Strings *)

Definition hex_char (n : nat) : ascii :=
  if (n <? 10)%nat then ascii_of_nat (48 + n) else ascii_of_nat (87 + n).

Definition hex_value (c : ascii) : option nat :=
  let n := nat_of_ascii c in
  if (48 <=? n)%nat && (n <=? 57)%nat then Some (n - 48)
  else if (97 <=? n)%nat && (n <=? 102)%nat then Some (n - 87)
  else if (65 <=? n)%nat && (n <=? 70)%nat then Some (n - 55)
  else None.

(** One character of a string, as [json.dumps] writes it: the quote, the
    backslash and the control characters escaped, and so is what is not
    ASCII. *)
Definition escape_char (c : ascii) : string :=
  let n := nat_of_ascii c in
  if Ascii.eqb c dquote then String backslash (String dquote "")
  else if Ascii.eqb c backslash then String backslash (String backslash "")
  else if Ascii.eqb c "010" then String backslash "n"
  else if Ascii.eqb c "013" then String backslash "r"
  else if Ascii.eqb c "009" then String backslash "t"
  else if Ascii.eqb c "008" then String backslash "b"
  else if Ascii.eqb c "012" then String backslash "f"
  else if (n <? 32)%nat || (127 <? n)%nat then
    String backslash (String "u" (String "0" (String "0"
      (String (hex_char (n / 16)) (String (hex_char (n mod 16)) "")))))
  else String c "".

Fixpoint escape (s : string) : string :=
  match s with
  | EmptyString => ""
  | String c r => escape_char c ++ escape r
  end.

Definition dumps_string (s : string) : string :=
  String dquote (escape s ++ String dquote "").

(** One character of a string body and what follows it; a raw control
    character is refused, and so is an escape of a code point over 255
    (characters are 8-bit code points here). *)
Definition read_char (s : string) : option (ascii * string) :=
  match s with
  | EmptyString => None
  | String c r =>
      if Ascii.eqb c backslash then
        match r with
        | String e r' =>
            if Ascii.eqb e dquote then Some (dquote, r')
            else if Ascii.eqb e backslash then Some (backslash, r')
            else if Ascii.eqb e "/" then Some ("/"%char, r')
            else if Ascii.eqb e "n" then Some ("010"%char, r')
            else if Ascii.eqb e "r" then Some ("013"%char, r')
            else if Ascii.eqb e "t" then Some ("009"%char, r')
            else if Ascii.eqb e "b" then Some ("008"%char, r')
            else if Ascii.eqb e "f" then Some ("012"%char, r')
            else if Ascii.eqb e "u" then
              match r' with
              | String h3 (String h2 (String h1 (String h0 r''))) =>
                  match hex_value h3, hex_value h2, hex_value h1, hex_value h0 with
                  | Some 0, Some 0, Some a, Some b => Some (ascii_of_nat (16 * a + b), r'')
                  | _, _, _, _ => None
                  end
              | _ => None
              end
            else None
        | EmptyString => None
        end
      else if (nat_of_ascii c <? 32)%nat then None
      else Some (c, r)
  end.

(** The body of a string up to its closing quote. *)
Fixpoint parse_chars (fuel : nat) (s : string) : option (string * string) :=
  match fuel with
  | O => None
  | S fuel' =>
      match s with
      | EmptyString => None
      | String c r =>
          if Ascii.eqb c dquote then Some ("", r)
          else
            match read_char s with
            | None => None
            | Some (x, r') =>
                match parse_chars fuel' r' with
                | None => None
                | Some (xs, r'') => Some (String x xs, r'')
                end
            end
      end
  end.

(** *** Values *)

Fixpoint join (sep : string) (parts : list string) : string :=
  match parts with
  | [] => ""
  | [p] => p
  | p :: rest => p ++ sep ++ join sep rest
  end.

(** [json.dumps], with its default separators. *)
Fixpoint dumps (j : json) : string :=
  match j with
  | JNull => "null"
  | JBool true => "true"
  | JBool false => "false"
  | JNum m e => dumps_number m e
  | JStr s => dumps_string s
  | JList l => String "[" (join ", " (map dumps l) ++ "]")
  | JDict d =>
      String "{" (join ", " (map (fun kv => dumps_string (fst kv) ++ ": " ++ dumps (snd kv)) d)
                  ++ "}")
  end.

(** [s] starts with [word]: what follows it. *)
Fixpoint expect (word s : string) : option string :=
  match word, s with
  | EmptyString, _ => Some s
  | String a word', String b s' => if Ascii.eqb a b then expect word' s' else None
  | _, _ => None
  end.

(** A value at the head of [s] (after whitespace) and what follows it.
    Every call consumes a character, so the length of the text is fuel
    enough. *)
Fixpoint parse_value (fuel : nat) (s : string) : option (json * string) :=
  match fuel with
  | O => None
  | S fuel' =>
      match skip_ws s with
      | EmptyString => None
      | String c r =>
          if Ascii.eqb c "n" then
            match expect "ull" r with Some r' => Some (JNull, r') | None => None end
          else if Ascii.eqb c "t" then
            match expect "rue" r with Some r' => Some (JBool true, r') | None => None end
          else if Ascii.eqb c "f" then
            match expect "alse" r with Some r' => Some (JBool false, r') | None => None end
          else if Ascii.eqb c dquote then
            match parse_chars fuel' r with
            | Some (x, r') => Some (JStr x, r')
            | None => None
            end
          else if Ascii.eqb c "[" then
            match skip_ws r with
            | EmptyString => None
            | String c' r' =>
                if Ascii.eqb c' "]" then Some (JList [], r')
                else
                  match parse_elements fuel' r with
                  | Some (l, r'') => Some (JList l, r'')
                  | None => None
                  end
            end
          else if Ascii.eqb c "{" then
            match skip_ws r with
            | EmptyString => None
            | String c' r' =>
                if Ascii.eqb c' "}" then Some (JDict [], r')
                else
                  match parse_members fuel' r with
                  | Some (d, r'') => Some (JDict d, r'')
                  | None => None
                  end
            end
          else
            match parse_number (String c r) with
            | Some (m, e, r') => Some (JNum m e, r')
            | None => None
            end
      end
  end
with parse_elements (fuel : nat) (s : string) : option (list json * string) :=
  match fuel with
  | O => None
  | S fuel' =>
      match parse_value fuel' s with
      | None => None
      | Some (v, r) =>
          match skip_ws r with
          | EmptyString => None
          | String c r' =>
              if Ascii.eqb c "," then
                match parse_elements fuel' r' with
                | Some (l, r'') => Some (v :: l, r'')
                | None => None
                end
              else if Ascii.eqb c "]" then Some ([v], r')
              else None
          end
      end
  end
with parse_members (fuel : nat) (s : string) : option (list (string * json) * string) :=
  match fuel with
  | O => None
  | S fuel' =>
      match skip_ws s with
      | String c r =>
          if Ascii.eqb c dquote then
            match parse_chars fuel' r with
            | None => None
            | Some (k, r1) =>
                match skip_ws r1 with
                | EmptyString => None
                | String c1 r2 =>
                    if Ascii.eqb c1 ":" then
                      match parse_value fuel' r2 with
                      | None => None
                      | Some (v, r3) =>
                          match skip_ws r3 with
                          | EmptyString => None
                          | String c3 r4 =>
                              if Ascii.eqb c3 "," then
                                match parse_members fuel' r4 with
                                | Some (d, r5) => Some ((k, v) :: d, r5)
                                | None => None
                                end
                              else if Ascii.eqb c3 "}" then Some ([(k, v)], r4)
                              else None
                          end
                      end
                    else None
                end
            end
          else None
      | EmptyString => None
      end
  end.

(** [json.loads]: one value, with nothing but whitespace after it; [None]
    stands for [JSONDecodeError]. *)
Definition loads (text : string) : option json :=
  match parse_value (S (String.length text)) text with
  | Some (j, r) => match skip_ws r with EmptyString => Some j | _ => None end
  | None => None
  end.

(** [rest] does not start with a digit. *)
Definition no_digit (rest : string) : Prop :=
  match rest with
  | EmptyString => True
  | String c _ => digit_of c = None
  end.

(** What may follow a value inside a document: the end of the text, a
    comma or a closing bracket. *)
Definition stops (rest : string) : bool :=
  match rest with
  | EmptyString => true
  | String c _ => Ascii.eqb c "," || Ascii.eqb c "]" || Ascii.eqb c "}"
  end.

(** The characters that no printed value starts with. *)
Definition opens (c : ascii) : bool :=
  negb (is_ws c || Ascii.eqb c "," || Ascii.eqb c "]" || Ascii.eqb c "}" || Ascii.eqb c ":").

(** What the round trip says of one value: its text reads back, whatever
    follows it inside a document, with the length of the text as fuel. *)
Definition reads_back (j : json) : Prop :=
  forall fuel rest, stops rest = true -> String.length (dumps j) <= fuel ->
    parse_value fuel (dumps j ++ rest) = Some (j, rest).

End Json.

(** ** Algorithm configurations on disk *)

Module LinkageConfig.

(** A matcher or a matching rule of a pass: a function of the program, held
    by reference, or an identifier. *)
Inductive ident : Type :=
| Func (module_ name : string)
| Ident (s : string).

(** The identifier of a function: [func:<dotted.path>]. *)
Definition func_to_str (f : ident) : string :=
  match f with
  | Func m n => "func:" ++ m ++ "." ++ n
  | Ident s => s
  end.

(** One pass: its matchers by feature name, its blocks, its rule, and the
    cluster ratio and keyword arguments when it has them. *)
Record pass : Type := Pass {
  funcs : list (string * ident);
  blocks : list json;
  matching_rule : ident;
  cluster_ratio : option (Z * Z);
  kwargs : option (list (string * json))
}.

(** The pass as the writer writes it, its identifiers those that
    [func_to_str] gives. *)
Definition in_string_form (p : pass) : pass :=
  {| funcs := map (fun kf => (fst kf, Ident (func_to_str (snd kf)))) (funcs p);
     blocks := blocks p;
     matching_rule := Ident (func_to_str (matching_rule p));
     cluster_ratio := cluster_ratio p;
     kwargs := kwargs p |}.

(** Modelled from the spec: the string form of an identifier,
    [func:<dotted.path>]: the text [func:] and then the dotted path of the
    function, which is its module, a dot and its name.  An identifier held
    as a string is in string form already. *)
Definition dotted_path (module_ name : string) : string := module_ ++ "." ++ name.

Definition string_form (f : ident) : string :=
  match f with
  | Func module_ name => "func:" ++ dotted_path module_ name
  | Ident s => s
  end.

(** Modelled from the spec: what the round trip is to give for a pass, the
    pass itself with each matcher and the rule in string form. *)
Definition read_back (p : pass) : pass :=
  {| funcs := map (fun kf => (fst kf, Ident (string_form (snd kf)))) (funcs p);
     blocks := blocks p;
     matching_rule := Ident (string_form (matching_rule p));
     cluster_ratio := cluster_ratio p;
     kwargs := kwargs p |}.

(** The identifiers of an algorithm description, matchers and rules, in
    string form. *)
Definition identifiers (a : list pass) : list string :=
  concat (map (fun p => (map (fun kf => string_form (snd kf)) (funcs p)
                         ++ [ string_form (matching_rule p) ])%list) a).

Definition is_string (f : ident) : bool :=
  match f with Ident _ => true | Func _ _ => false end.

Definition all_strings (p : pass) : bool :=
  forallb (fun kf => is_string (snd kf)) (funcs p) && is_string (matching_rule p).

(** The pass object of the file. *)
Definition pass_to_json (p : pass) : json :=
  JDict ([ ("funcs", JDict (map (fun kf => (fst kf, JStr (func_to_str (snd kf)))) (funcs p)));
           ("blocks", JList (blocks p));
           ("matching_rule", JStr (func_to_str (matching_rule p))) ]
         ++ match cluster_ratio p with
            | Some (m, e) => [ ("cluster_ratio", JNum m e) ]
            | None => []
            end
         ++ match kwargs p with
            | Some kw => [ ("kwargs", JDict kw) ]
            | None => []
            end).

Definition item (key : string) (d : list (string * json)) : option json :=
  match find (fun kv => String.eqb (fst kv) key) d with
  | Some kv => Some (snd kv)
  | None => None
  end.

Fixpoint funcs_of_items (d : list (string * json)) : option (list (string * ident)) :=
  match d with
  | [] => Some []
  | (k, JStr s) :: d' =>
      match funcs_of_items d' with
      | Some fs => Some ((k, Ident s) :: fs)
      | None => None
      end
  | _ => None
  end.

Definition pass_of_json (j : json) : option pass :=
  match j with
  | JDict d =>
      match item "funcs" d, item "blocks" d, item "matching_rule" d with
      | Some (JDict fd), Some (JList bs), Some (JStr mr) =>
          match funcs_of_items fd with
          | None => None
          | Some fs =>
              match item "cluster_ratio" d, item "kwargs" d with
              | None, None => Some (Pass fs bs (Ident mr) None None)
              | Some (JNum m e), None => Some (Pass fs bs (Ident mr) (Some (m, e)) None)
              | None, Some (JDict kw) => Some (Pass fs bs (Ident mr) None (Some kw))
              | Some (JNum m e), Some (JDict kw) =>
                  Some (Pass fs bs (Ident mr) (Some (m, e)) (Some kw))
              | _, _ => None
              end
          end
      | _, _, _ => None
      end
  | _ => None
  end.

Fixpoint passes_of_json (l : list json) : option (list pass) :=
  match l with
  | [] => Some []
  | j :: l' =>
      match pass_of_json j, passes_of_json l' with
      | Some p, Some ps => Some (p :: ps)
      | _, _ => None
      end
  end.

Section Files.
(** The files, by path, and the identifiers that the registry of matchers
    and rules knows. *)
Variable registered : string -> bool.

Definition known (p : pass) : bool :=
  forallb (fun kf => registered (func_to_str (snd kf))) (funcs p)
  && registered (func_to_str (matching_rule p)).

(** Modelled from the spec: [write_linkage_config] (linkage/link.py is not
    among the sources).  The file is a JSON array of pass objects, with the
    matchers and the rule written as identifiers. *)
Definition write_linkage_config (linkage_algo : list pass) (file_to_write : string)
    (files : gmap string string) : gmap string string :=
  <[ file_to_write := Json.dumps (JList (map pass_to_json linkage_algo)) ]> files.

(** Modelled from the spec: [read_linkage_config] (linkage/link.py is not
    among the sources).  A missing file, a text that is not JSON and an
    identifier that the registry does not know are the three loader errors. *)
Definition read_linkage_config (files : gmap string string) (config_file : string)
  : outcome (list pass) :=
  match files !! config_file with
  | None => Raises FileNotFoundError
  | Some text =>
      match Json.loads text with
      | None => Raises JSONDecodeError
      | Some (JList l) =>
          match passes_of_json l with
          | Some algo => if forallb known algo then Returns algo else Raises InvalidConfig
          | None => Raises InvalidConfig
          end
      | Some _ => Raises InvalidConfig
      end
  end.
End Files.

(** The matchers and the rules of the matchers library. *)
Definition matchers_module : string := "recordlinker.linkage.matchers".

Definition library : list string :=
  map (fun name => "func:" ++ matchers_module ++ "." ++ name)
    [ "feature_match_exact"; "feature_match_fuzzy_string"; "feature_match_four_char";
      "feature_match_log_odds_exact"; "feature_match_log_odds_fuzzy_compare";
      "eval_perfect_match"; "eval_log_odds_cutoff" ].

Definition in_library (identifier : string) : bool :=
  existsb (String.eqb identifier) library.

(** The algorithm of [test_algo_write], held with function references. *)
Definition sample_algo : list pass :=
  [ {| funcs := [ ("first_name", Func matchers_module "feature_match_fuzzy_string");
                  ("last_name", Func matchers_module "feature_match_exact") ];
       blocks := [ JStr "MRN4"; JStr "ADDRESS4" ];
       matching_rule := Func matchers_module "eval_perfect_match";
       cluster_ratio := None;
       kwargs := None |};
    {| funcs := [ ("last_name", Func matchers_module "feature_match_four_char");
                  ("sex", Func matchers_module "feature_match_log_odds_exact");
                  ("address", Func matchers_module "feature_match_log_odds_fuzzy_compare") ];
       blocks := [ JStr "ZIP"; JStr "BIRTH_YEAR" ];
       matching_rule := Func matchers_module "eval_log_odds_cutoff";
       cluster_ratio := Some (9, -1)%Z;
       kwargs := Some [ ("similarity_measure", JStr "Levenshtein");
                        ("threshold", JNum 85 (-2)) ] |} ].

(** What the test expects to read back. *)
Definition loaded_algo : list pass :=
  [ {| funcs := [ ("first_name",
                   Ident "func:recordlinker.linkage.matchers.feature_match_fuzzy_string");
                  ("last_name",
                   Ident "func:recordlinker.linkage.matchers.feature_match_exact") ];
       blocks := [ JStr "MRN4"; JStr "ADDRESS4" ];
       matching_rule := Ident "func:recordlinker.linkage.matchers.eval_perfect_match";
       cluster_ratio := None;
       kwargs := None |};
    {| funcs := [ ("last_name",
                   Ident "func:recordlinker.linkage.matchers.feature_match_four_char");
                  ("sex",
                   Ident "func:recordlinker.linkage.matchers.feature_match_log_odds_exact");
                  ("address",
                   Ident "func:recordlinker.linkage.matchers.feature_match_log_odds_fuzzy_compare") ];
       blocks := [ JStr "ZIP"; JStr "BIRTH_YEAR" ];
       matching_rule := Ident "func:recordlinker.linkage.matchers.eval_log_odds_cutoff";
       cluster_ratio := Some (9, -1)%Z;
       kwargs := Some [ ("similarity_measure", JStr "Levenshtein");
                        ("threshold", JNum 85 (-2)) ] |} ].

(** An algorithm whose matcher is a function of another module, which the
    matchers library does not have. *)
Definition custom_algo : list pass :=
  [ {| funcs := [ ("first_name", Func "clinic.rules" "feature_match_initials") ];
       blocks := [ JStr "ZIP" ];
       matching_rule := Func matchers_module "eval_perfect_match";
       cluster_ratio := None;
       kwargs := None |} ].

(** The files of [test_read_algo_errors]: no [invalid.json], and a file
    whose text is not JSON. *)
Definition not_json : string :=
  "this is a random string that is not in json format" ++ String "010" "".

Definition test_files : gmap string string :=
  {[ "not_valid_json_test.json" := not_json ]}.

End LinkageConfig.

(** ** Tactics *)

(** Case analysis on the eight bits of a character. *)
Ltac each_char c := destruct c as [[] [] [] [] [] [] [] []].

(** ** Measures and shapes of Python values *)

(** The number of values in [v], itself included. *)
Fixpoint json_size (v : json) : nat :=
  match v with
  | JList l => S (list_sum (map json_size l))
  | JDict d => S (list_sum (map (fun kv => json_size (snd kv)) d))
  | _ => 1
  end.

(** A string, a number or a boolean. *)
Definition is_scalar (v : json) : bool :=
  match v with
  | JBool _ | JNum _ _ | JStr _ => true
  | _ => false
  end.

(** A list or a dict that is not empty and holds nothing but nulls, empty
    lists and empty dicts. *)
Definition hollow (v : json) : bool :=
  match v with
  | JList (x :: l) => forallb Patient.is_empty (x :: l)
  | JDict (kv :: d) => forallb (fun kv' => Patient.is_empty (snd kv')) (kv :: d)
  | _ => false
  end.

(** Some value strictly inside [v] is hollow. *)
Fixpoint has_hollow (v : json) : bool :=
  match v with
  | JList l => existsb (fun x => hollow x || has_hollow x) l
  | JDict d => existsb (fun kv => hollow (snd kv) || has_hollow (snd kv)) d
  | _ => false
  end.

(** A dump with falsy values: an empty string, a zero and [False] beside a
    [None]. *)
Definition falsy_values : list (string * json) :=
  [ ("mrn", JStr ""); ("count", JNum 0 0); ("flag", JBool false); ("sex", JNull) ].

(** A record with no field set. *)
Definition no_fields : PII.PIIRecord :=
  {| PII.external_id := None; PII.birth_date := None; PII.sex := None;
     PII.mrn := None; PII.name := []; PII.address := []; PII.telecom := [] |}.

(** ** The invariant of the PII record *)

(** Modelled from the spec: the invariant of [PIIRecord], string fields are
    trimmed and absent fields are null, not empty strings.  A string field
    that is set is not empty and neither starts nor ends with whitespace. *)
Definition trimmed_field (o : option string) : bool :=
  match o with
  | Some x => stripped x
  | None => true
  end.

Definition trimmed_name (n : PII.Name) : bool :=
  stripped (PII.family n) && forallb stripped (PII.given n).

Definition trimmed_address (a : PII.Address) : bool :=
  forallb stripped (PII.line a) && trimmed_field (PII.city a)
  && trimmed_field (PII.state a) && trimmed_field (PII.postal_code a)
  && trimmed_field (PII.country a).

Definition trimmed_record (r : PII.PIIRecord) : bool :=
  trimmed_field (PII.external_id r) && trimmed_field (PII.mrn r)
  && forallb trimmed_name (PII.name r) && forallb trimmed_address (PII.address r)
  && forallb (fun t => stripped (PII.value t)) (PII.telecom r).

(** * Properties *)

(** Induction on JSON values, with the hypothesis on every child. *)
Lemma json_ind' (P : json -> Prop) :
  P JNull -> (forall b, P (JBool b)) -> (forall m e, P (JNum m e)) ->
  (forall s, P (JStr s)) ->
  (forall l, Forall P l -> P (JList l)) ->
  (forall d, Forall (fun kv => P (snd kv)) d -> P (JDict d)) ->
  forall v, P v.
Proof.
  intros Hnull Hbool Hnum Hstr Hlist Hdict.
  fix IH 1. intros [ | b | m e | s | l | d ].
  - exact Hnull.
  - apply Hbool.
  - apply Hnum.
  - apply Hstr.
  - apply Hlist. induction l as [ | x l IHl ]; constructor; [ apply IH | exact IHl ].
  - apply Hdict. induction d as [ | [k x] d IHd ]; constructor; [ apply IH | exact IHd ].
Qed.

(** ** Strings *)

Lemma str_prefix_length n x : String.length (str_prefix n x) <= n.
Proof.
  revert x. induction n as [ | n IH ]; intros [ | c x ]; simpl; try lia.
  specialize (IH x). lia.
Qed.

Lemma str_from_length n x : String.length (str_from n x) = String.length x - n.
Proof.
  revert x. induction n as [ | n IH ]; intros [ | c x ]; simpl; try lia.
  apply IH.
Qed.

Lemma str_suffix_length n x : String.length (str_suffix n x) <= n.
Proof. unfold str_suffix. rewrite str_from_length. lia. Qed.

Lemma all_space_first x c :
  first_char x = Some c -> all_space x = true -> is_space c = true.
Proof.
  destruct x as [ | a x ]; simpl; [ discriminate | ].
  intros [= ->] H. apply andb_true_iff in H. tauto.
Qed.

Lemma all_space_last x c :
  last_char x = Some c -> all_space x = true -> is_space c = true.
Proof.
  induction x as [ | a x IH ]; simpl; [ discriminate | ].
  intros Hl H. apply andb_true_iff in H as [Ha Hx].
  destruct x as [ | b x ]; [ congruence | auto ].
Qed.

Lemma first_char_prefix n x : first_char (str_prefix (S n) x) = first_char x.
Proof. destruct x; reflexivity. Qed.

Lemma last_char_from n x :
  n < String.length x -> last_char (str_from n x) = last_char x.
Proof.
  revert x. induction n as [ | n IH ]; intros [ | c x ] Hn; simpl in *; try lia; try reflexivity.
  rewrite IH by lia. destruct x; [ simpl in Hn; lia | reflexivity ].
Qed.

Lemma last_char_suffix n x : last_char (str_suffix (S n) x) = last_char x.
Proof.
  unfold str_suffix. destruct x as [ | c x ]; [ reflexivity | ].
  apply last_char_from. simpl. lia.
Qed.

Lemma stripped_not_blank x : stripped x = true -> blank x = false.
Proof.
  unfold stripped, blank. destruct (first_char x) as [a | ] eqn:Hf; [ | discriminate ].
  destruct (last_char x) as [b | ]; [ | discriminate ].
  intros H. apply andb_true_iff in H as [Ha _].
  destruct (all_space x) eqn:Hs; [ | reflexivity ].
  rewrite (all_space_first _ _ Hf Hs) in Ha. discriminate.
Qed.

Lemma prefix_not_blank n x : stripped x = true -> blank (str_prefix (S n) x) = false.
Proof.
  unfold stripped, blank. destruct (first_char x) as [a | ] eqn:Hf; [ | discriminate ].
  destruct (last_char x) as [b | ]; [ | discriminate ].
  intros H. apply andb_true_iff in H as [Ha _].
  destruct (all_space (str_prefix (S n) x)) eqn:Hs; [ | reflexivity ].
  rewrite <- (first_char_prefix n) in Hf.
  rewrite (all_space_first _ _ Hf Hs) in Ha. discriminate.
Qed.

Lemma suffix_not_blank n x : stripped x = true -> blank (str_suffix (S n) x) = false.
Proof.
  unfold stripped, blank. destruct (first_char x) as [a | ]; [ | discriminate ].
  destruct (last_char x) as [b | ] eqn:Hl; [ | discriminate ].
  intros H. apply andb_true_iff in H as [_ Hb].
  destruct (all_space (str_suffix (S n) x)) eqn:Hs; [ | reflexivity ].
  rewrite <- (last_char_suffix n) in Hl.
  rewrite (all_space_last _ _ Hl Hs) in Hb. discriminate.
Qed.

(** ** [Person] *)

(** X5: two persons are equal exactly when their primary keys are, a person
    equals nothing that is not a person, and equal persons have the same
    hash. *)
Theorem person_eq_hash (hash : Z -> Z) (p q : Person.t) :
  (Person.__eq__ p (Person.IsPerson q) = true <-> Person.id p = Person.id q) /\
  Person.__eq__ p Person.Other = false /\
  (Person.__eq__ p (Person.IsPerson q) = true ->
   Person.__hash__ hash p = Person.__hash__ hash q).
Proof.
  unfold Person.__eq__, Person.__hash__. rewrite Z.eqb_eq.
  split; [ reflexivity | split; [ reflexivity | ] ]. intros ->. reflexivity.
Qed.

Lemma person_eq_hash_witness :
  let p := Person.mk 7 "a" in
  let q := Person.mk 7 "b" in
  Person.__eq__ p (Person.IsPerson q) = true /\
  Person.__hash__ (fun n => n mod 2305843009213693951)%Z p
    = Person.__hash__ (fun n => n mod 2305843009213693951)%Z q.
Proof.
  split; [ reflexivity | ].
  apply (proj2 (proj2 (person_eq_hash (fun n => n mod 2305843009213693951)%Z
                         (Person.mk 7 "a") (Person.mk 7 "b")))).
  reflexivity.
Defined.

(** ** [Patient._scrub_empty] *)

(** C1 (where the code departs from it): scrubbing is not idempotent.  The
    address dict is kept because it is not empty when it is tested, and
    scrubbing its items then leaves [{}]; a second pass drops that [{}] and
    leaves an empty list, which only a third pass drops. *)
Theorem scrub_empty_not_idempotent :
  Patient._scrub_empty bare_address = JDict [("address", JList [JDict []])] /\
  Patient._scrub_empty (Patient._scrub_empty bare_address)
    = JDict [("address", JList [])] /\
  Patient._scrub_empty (Patient._scrub_empty bare_address)
    <> Patient._scrub_empty bare_address.
Proof. split; [ reflexivity | split; [ reflexivity | discriminate ] ]. Qed.

(** C2 (where the code departs from it): the setter stores an empty dict
    inside [data] for a record whose address has no field set. *)
Theorem set_record_stores_empty_dict (self : Patient.t) :
  Patient.data (Patient.set_record PII.model_dump_json self record_with_bare_address)
    = JDict [("address", JList [JDict []])] /\
  has_empty (Patient.data
               (Patient.set_record PII.model_dump_json self record_with_bare_address))
    = true.
Proof. split; reflexivity. Qed.

(** Scalars pass through. *)
Lemma scrub_empty_scalar (v : json) :
  match v with JList _ | JDict _ => False | _ => True end ->
  Patient._scrub_empty v = v.
Proof. destruct v; simpl; tauto. Qed.

(** What scrubbing does achieve: the nulls are gone, at every depth. *)
Lemma scrub_empty_not_null v : v <> JNull -> Patient._scrub_empty v <> JNull.
Proof. destruct v; simpl; congruence. Qed.

(** X1: scrubbing leaves no null inside its result, at any depth. *)
Theorem scrub_empty_no_null v : has_null (Patient._scrub_empty v) = false.
Proof.
  induction v as [ | b | m e | s | l IH | d IH ] using json_ind'; try reflexivity.
  - simpl. induction IH as [ | x l Hx _ IHl ]; [ reflexivity | ].
    simpl. destruct (Patient.is_empty x) eqn:Hex; [ exact IHl | ].
    simpl. apply orb_false_iff; split; [ | exact IHl ]. rewrite Hx.
    destruct (Patient._scrub_empty x) eqn:Hs; try reflexivity.
    destruct x; simpl in Hex, Hs; congruence.
  - simpl. induction IH as [ | [k x] d Hx _ IHd ]; [ reflexivity | ].
    simpl in *. destruct (Patient.is_empty x) eqn:Hex; [ exact IHd | ].
    simpl. apply orb_false_iff; split; [ | exact IHd ]. rewrite Hx.
    destruct (Patient._scrub_empty x) eqn:Hs; try reflexivity.
    destruct x; simpl in Hex, Hs; congruence.
Qed.

(** A value with nothing empty inside is left as it is. *)
Lemma scrub_empty_clean v : has_empty v = false -> Patient._scrub_empty v = v.
Proof.
  induction v as [ | b | m e | s | l IH | d IH ] using json_ind'; try reflexivity.
  - simpl. intros H. f_equal. induction IH as [ | x l Hx _ IHl ]; [ reflexivity | ].
    simpl in H. apply orb_false_iff in H as [H Hl].
    apply orb_false_iff in H as [Hex Hhx].
    simpl. rewrite Hex. simpl. f_equal; [ exact (Hx Hhx) | exact (IHl Hl) ].
  - simpl. intros H. f_equal. induction IH as [ | [k x] d Hx _ IHd ]; [ reflexivity | ].
    simpl in *. apply orb_false_iff in H as [H Hd].
    apply orb_false_iff in H as [Hex Hhx].
    rewrite Hex. simpl. f_equal; [ f_equal; exact (Hx Hhx) | exact (IHd Hd) ].
Qed.

(** X2: a second pass changes nothing when the first one left nothing
    empty inside its result. *)
Theorem scrub_empty_idempotent_when_clean v :
  has_empty (Patient._scrub_empty v) = false ->
  Patient._scrub_empty (Patient._scrub_empty v) = Patient._scrub_empty v.
Proof. apply scrub_empty_clean. Qed.

Lemma scrub_empty_idempotent_when_clean_witness :
  has_empty (Patient._scrub_empty (PII.model_dump_json doe_smith)) = false /\
  Patient._scrub_empty (Patient._scrub_empty (PII.model_dump_json doe_smith))
    = Patient._scrub_empty (PII.model_dump_json doe_smith).
Proof.
  split; [ reflexivity | ].
  apply (scrub_empty_idempotent_when_clean (PII.model_dump_json doe_smith)).
  reflexivity.
Defined.

(** ** [Patient.record] *)

(** C10: a patient whose [data] is [None] or [{}] has no record (the
    property returns [None], the constructor is not called and nothing is
    raised); and when the property returns a record, [data] is a dict with at
    least one item, from which the constructor built that record. *)
Theorem record_none_unless_data {PIIRecord : Type}
    (PIIRecord_init : list (string * json) -> outcome PIIRecord) (self : Patient.t) :
  (Patient.data self = JNull \/ Patient.data self = JDict [] ->
   Patient.record PIIRecord_init self = Returns None) /\
  (forall r, Patient.record PIIRecord_init self = Returns (Some r) ->
   exists d, Patient.data self = JDict d /\ d <> [] /\ PIIRecord_init d = Returns r).
Proof.
  unfold Patient.record. split.
  - intros [-> | ->]; reflexivity.
  - intros r. destruct (Patient.data self) as [ | b | m e | s | l | d ]; simpl;
      try discriminate; try (case_match; discriminate).
    destruct d as [ | kv d ]; simpl; [ discriminate | ].
    destruct (PIIRecord_init (kv :: d)) as [ r' | e ] eqn:Hi; simpl; [ | discriminate ].
    intros [= ->]. exists (kv :: d). repeat split; [ discriminate | exact Hi ].
Qed.

(** A patient whose [data] is [{}] has no record; one whose [data] holds an
    MRN has the record that the constructor (here the identity on dicts)
    builds from it. *)
Lemma record_none_unless_data_witness :
  let init := fun d : list (string * json) => Returns d in
  let no_data := Patient.mk 1 1 (JDict []) None None None in
  let with_data := Patient.mk 2 1 (JDict [("mrn", JStr "123456")]) None None None in
  Patient.record init no_data = Returns None /\
  Patient.record init with_data = Returns (Some [("mrn", JStr "123456")]) /\
  exists d, Patient.data with_data = JDict d /\ d <> [] /\
            init d = Returns [("mrn", JStr "123456")].
Proof.
  cbv zeta. split; [ | split ].
  - apply (proj1 (record_none_unless_data (fun d => Returns d)
                    (Patient.mk 1 1 (JDict []) None None None))).
    right. reflexivity.
  - reflexivity.
  - apply (proj2 (record_none_unless_data (fun d => Returns d)
                    (Patient.mk 2 1 (JDict [("mrn", JStr "123456")]) None None None))).
    reflexivity.
Defined.

(** ** [BlockingKey.to_value] *)

Section To_value_facts.
Context {PIIRecord : Type}.
Variable field_iter : PIIRecord -> string -> outcome (list string).

Lemma too_long_true (vals : gset string) :
  BlockingKey.too_long vals = true <->
  exists x, x ∈ vals /\ BLOCKING_VALUE_MAX_LENGTH < String.length x.
Proof.
  unfold BlockingKey.too_long. rewrite existsb_exists. split.
  - intros (x & Hin & Hlen). exists x. split.
    + apply elem_of_elements, list_elem_of_In, Hin.
    + apply Nat.ltb_lt, Hlen.
  - intros (x & Hin & Hlen). exists x. split.
    + apply list_elem_of_In, elem_of_elements, Hin.
    + apply Nat.ltb_lt, Hlen.
Qed.

Lemma too_long_false (vals : gset string) :
  BlockingKey.too_long vals = false <->
  forall x, x ∈ vals -> String.length x <= BLOCKING_VALUE_MAX_LENGTH.
Proof.
  split.
  - intros H x Hin. destruct (Nat.le_gt_cases (String.length x) BLOCKING_VALUE_MAX_LENGTH)
      as [ Hle | Hgt ]; [ exact Hle | ].
    assert (BlockingKey.too_long vals = true) by (apply too_long_true; eauto).
    congruence.
  - intros H. destruct (BlockingKey.too_long vals) eqn:Ht; [ | reflexivity ].
    apply too_long_true in Ht as (x & Hin & Hlen). specialize (H x Hin). lia.
Qed.

(** [to_value] is [derived] behind the length check. *)
Lemma to_value_returns self record vals :
  BlockingKey.to_value field_iter self record = Returns vals <->
  BlockingKey.derived field_iter self record = Returns vals /\
  BlockingKey.too_long vals = false.
Proof.
  unfold BlockingKey.to_value.
  destruct (BlockingKey.derived field_iter self record) as [ vs | e ]; simpl.
  - destruct (BlockingKey.too_long vs) eqn:Ht; split.
    + discriminate.
    + intros [[= ->] H]. congruence.
    + intros [= ->]. auto.
    + intros [[= ->] _]. reflexivity.
  - split; [ discriminate | intros [H _]; discriminate ].
Qed.

Lemma derived_spec self record :
  BlockingKey.derived field_iter self record =
  xs ← field_iter record (field_name self); Returns (list_to_set (cut self <$> xs)).
Proof.
  destruct self; simpl; destruct (field_iter record _); simpl;
    rewrite ?(left_id_L ∅ (∪)), ?list_fmap_id; reflexivity.
Qed.

Lemma derived_elem self record vals v :
  BlockingKey.derived field_iter self record = Returns vals ->
  v ∈ vals ->
  exists xs x, field_iter record (field_name self) = Returns xs /\ x ∈ xs /\ v = cut self x.
Proof.
  rewrite derived_spec. destruct (field_iter record (field_name self)) as [ xs | e ];
    simpl; [ | discriminate ].
  intros [= <-] Hv. apply elem_of_list_to_set, list_elem_of_fmap in Hv as (x & -> & Hx).
  eauto.
Qed.

End To_value_facts.

(** X3: the identifiers of the blocking keys are 1 to 6, in the order of
    the enumeration, and no two keys share one. *)
Theorem blocking_key_ids :
  map BlockingKey.id
    [ BlockingKey.BIRTHDATE; BlockingKey.MRN; BlockingKey.SEX; BlockingKey.ZIP;
      BlockingKey.FIRST_NAME; BlockingKey.LAST_NAME ] = [ 1; 2; 3; 4; 5; 6 ]%Z /\
  forall k k', BlockingKey.id k = BlockingKey.id k' <-> k = k'.
Proof.
  split; [ reflexivity | ].
  intros k k'. split; [ | intros ->; reflexivity ].
  destruct k, k'; simpl; first [ reflexivity | discriminate ].
Qed.

(** C3: every string that [to_value] returns has at most 20 characters, and
    when one of the derived values is longer [to_value] raises
    [RuntimeError] instead of returning. *)
Theorem to_value_max_length {PIIRecord : Type}
    (field_iter : PIIRecord -> string -> outcome (list string))
    (self : BlockingKey.t) (record : PIIRecord) :
  (forall vals, BlockingKey.to_value field_iter self record = Returns vals ->
     forall x, x ∈ vals -> String.length x <= 20) /\
  (forall vals, BlockingKey.derived field_iter self record = Returns vals ->
     (exists x, x ∈ vals /\ 20 < String.length x) ->
     BlockingKey.to_value field_iter self record = Raises RuntimeError).
Proof.
  split.
  - intros vals H. apply to_value_returns in H as [_ H].
    exact (proj1 (too_long_false vals) H).
  - intros vals Hd Hex. unfold BlockingKey.to_value. rewrite Hd. simpl.
    rewrite (proj2 (too_long_true vals) Hex). reflexivity.
Qed.

(** The postal codes of the record of [test_field_iter] are within the
    bound; the length check fires on a field value of 21 characters. *)
Lemma to_value_max_length_witness :
  BlockingKey.to_value PII.field_iter BlockingKey.ZIP doe_smith
    = Returns {[ "12345"; "98765" ]} /\
  (forall x, x ∈ ({[ "12345"; "98765" ]} : gset string) -> String.length x <= 20) /\
  let field_iter := fun (_ : unit) (_ : string) => Returns ["123456789012345678901"] in
  BlockingKey.derived field_iter BlockingKey.ZIP tt = Returns {[ "123456789012345678901" ]} /\
  BlockingKey.to_value field_iter BlockingKey.ZIP tt = Raises RuntimeError.
Proof.
  assert (Hz : BlockingKey.to_value PII.field_iter BlockingKey.ZIP doe_smith
               = Returns {[ "12345"; "98765" ]}) by reflexivity.
  split; [ exact Hz | ].
  split; [ exact (proj1 (to_value_max_length PII.field_iter BlockingKey.ZIP doe_smith) _ Hz) | ].
  simpl.
  assert (Hd : BlockingKey.derived (fun (_ : unit) (_ : string) => Returns ["123456789012345678901"])
                 BlockingKey.ZIP tt = Returns {[ "123456789012345678901" ]}).
  { reflexivity. }
  split; [ exact Hd | ].
  apply (proj2 (to_value_max_length _ BlockingKey.ZIP tt) _ Hd).
  exists "123456789012345678901". split; [ set_solver | simpl; lia ].
Defined.

(** No element of what [to_value] returns is blank when no value of the
    field is, once cut. *)
Lemma to_value_elem_not_blank {PIIRecord : Type}
    (field_iter : PIIRecord -> string -> outcome (list string))
    (self : BlockingKey.t) (record : PIIRecord) (vals : gset string) :
  (forall xs x, field_iter record (field_name self) = Returns xs ->
     x ∈ xs -> blank (cut self x) = false) ->
  BlockingKey.to_value field_iter self record = Returns vals ->
  forall v, v ∈ vals -> blank v = false.
Proof.
  intros Hs H v Hv. apply to_value_returns in H as [Hd _].
  destruct (derived_elem _ _ _ _ _ Hd Hv) as (xs & x & Hf & Hx & ->).
  exact (Hs xs x Hf Hx).
Qed.

Lemma cut_not_blank (self : BlockingKey.t) (x : string) :
  stripped x = true -> blank (cut self x) = false.
Proof.
  intros Hs. destruct self; unfold cut;
    auto using stripped_not_blank, prefix_not_blank, suffix_not_blank.
Qed.



(** In the data model, a record within the invariant meets the condition
    for every key: a birth date yields its ISO form, a sex its letter, a
    postal code its first five characters. *)
Lemma digit_not_space n : is_space (PII.digit n) = false.
Proof.
  unfold PII.digit. pose proof (Nat.mod_upper_bound n 10 ltac:(lia)) as Hlt.
  destruct (n mod 10) as [ | [ | [ | [ | [ | [ | [ | [ | [ | [ | m ]]]]]]]]]];
    try reflexivity.
  lia.
Qed.

Lemma trimmed_record_yields (r : PII.PIIRecord) (self : BlockingKey.t) xs x :
  trimmed_record r = true ->
  PII.field_iter r (field_name self) = Returns xs -> x ∈ xs ->
  blank (cut self x) = false.
Proof.
  unfold trimmed_record. intros Ht.
  apply andb_true_iff in Ht as [Ht _]. apply andb_true_iff in Ht as [Ht Haddr].
  apply andb_true_iff in Ht as [Ht Hname]. apply andb_true_iff in Ht as [_ Hmrn].
  rewrite forallb_forall in Haddr. rewrite forallb_forall in Hname.
  destruct self; unfold PII.field_iter, field_name, cut;
    simpl (PII.feature_of _); cbv iota; intros [= <-] Hx.
  - destruct (PII.birth_date r) as [ d | ]; [ | inversion Hx ].
    apply list_elem_of_singleton in Hx as ->. unfold blank, PII.isoformat.
    cbn [all_space]. rewrite digit_not_space. reflexivity.
  - destruct (PII.mrn r) as [ m | ]; [ | inversion Hx ].
    apply list_elem_of_singleton in Hx as ->. apply suffix_not_blank. exact Hmrn.
  - destruct (PII.sex r) as [ [] | ]; [ | | | inversion Hx ];
      apply list_elem_of_singleton in Hx as ->; reflexivity.
  - apply list_elem_of_In, in_concat in Hx as (l & Hl & Hx).
    apply list_elem_of_In, list_elem_of_fmap in Hl as (a & -> & Ha).
    apply list_elem_of_In, Haddr in Ha.
    unfold trimmed_address in Ha.
    apply andb_true_iff in Ha as [Ha _]. apply andb_true_iff in Ha as [_ Hp].
    destruct (PII.postal_code a) as [ p | ]; [ | destruct Hx ].
    destruct Hx as [ <- | [] ]. apply (prefix_not_blank 4). exact Hp.
  - apply list_elem_of_In, in_concat in Hx as (l & Hl & Hx).
    apply list_elem_of_In, list_elem_of_fmap in Hl as (n & -> & Hn).
    apply list_elem_of_In, Hname in Hn.
    unfold trimmed_name in Hn. apply andb_true_iff in Hn as [_ Hg].
    rewrite forallb_forall in Hg. apply prefix_not_blank, Hg, Hx.
  - apply list_elem_of_fmap in Hx as (n & -> & Hn).
    apply list_elem_of_In, Hname in Hn.
    unfold trimmed_name in Hn. apply andb_true_iff in Hn as [Hf _].
    apply prefix_not_blank, Hf.
Qed.

(** For every record of the data model within the invariant and every key,
    [to_value] returns no empty and no whitespace-only string. *)
Lemma trimmed_record_blank_free (r : PII.PIIRecord) (self : BlockingKey.t)
    (vals : gset string) :
  trimmed_record r = true ->
  BlockingKey.to_value PII.field_iter self r = Returns vals ->
  forall v, v ∈ vals -> blank v = false.
Proof.
  intros Ht. apply to_value_elem_not_blank.
  intros xs x. apply trimmed_record_yields, Ht.
Qed.

(** C5: [MRN.to_value] is the set of the last four characters of each MRN
    value of the record, [FIRST_NAME.to_value] the set of the first four
    characters of each given name and [LAST_NAME.to_value] that of each
    family name, the values being those that [field_iter] yields for "mrn",
    "first_name" and "last_name". *)
Theorem to_value_mrn_and_names {PIIRecord : Type}
    (field_iter : PIIRecord -> string -> outcome (list string)) (record : PIIRecord) :
  (forall mrns, field_iter record "mrn" = Returns mrns ->
     BlockingKey.to_value field_iter BlockingKey.MRN record
       = Returns (list_to_set (str_suffix 4 <$> mrns))) /\
  (forall givens, field_iter record "first_name" = Returns givens ->
     BlockingKey.to_value field_iter BlockingKey.FIRST_NAME record
       = Returns (list_to_set (str_prefix 4 <$> givens))) /\
  (forall families, field_iter record "last_name" = Returns families ->
     BlockingKey.to_value field_iter BlockingKey.LAST_NAME record
       = Returns (list_to_set (str_prefix 4 <$> families))).
Proof.
  assert (Hshort : forall (f : string -> string) (xs : list string),
            (forall x, String.length (f x) <= 4) ->
            BlockingKey.too_long (list_to_set (f <$> xs)) = false).
  { intros f xs Hf. apply too_long_false. intros v Hv.
    apply elem_of_list_to_set, list_elem_of_fmap in Hv as (x & -> & _).
    specialize (Hf x). unfold BLOCKING_VALUE_MAX_LENGTH. lia. }
  split; [ | split ]; intros xs Hxs; apply to_value_returns; rewrite derived_spec;
    unfold field_name, cut; rewrite Hxs; (split; [ reflexivity | apply Hshort ]).
  - apply str_suffix_length.
  - apply str_prefix_length.
  - apply str_prefix_length.
Qed.

Lemma to_value_mrn_and_names_witness :
  BlockingKey.to_value PII.field_iter BlockingKey.MRN doe_smith = Returns {[ "3456" ]} /\
  BlockingKey.to_value PII.field_iter BlockingKey.FIRST_NAME doe_smith
    = Returns {[ "John"; "L"; "Jane" ]} /\
  BlockingKey.to_value PII.field_iter BlockingKey.LAST_NAME doe_smith
    = Returns {[ "Doe"; "Smit" ]}.
Proof.
  destruct (to_value_mrn_and_names PII.field_iter doe_smith) as (Hm & Hf & Hl).
  split; [ | split ].
  - rewrite (Hm ["123456"]) by reflexivity. reflexivity.
  - rewrite (Hf ["John"; "L"; "Jane"]) by reflexivity. reflexivity.
  - rewrite (Hl ["Doe"; "Smith"]) by reflexivity. reflexivity.
Defined.

(** Equal cuts are kept once. *)
Example to_value_deduplicates :
  BlockingKey.to_value PII.field_iter BlockingKey.FIRST_NAME jonathans = Returns {[ "Jona" ]} /\
  BlockingKey.to_value PII.field_iter BlockingKey.LAST_NAME jonathans
    = Returns {[ "Doe"; "Doer" ]} /\
  BlockingKey.to_value PII.field_iter BlockingKey.MRN jonathans = Returns {[ "0042" ]}.
Proof. repeat split. Qed.

(** ** [generate_hash_str] *)

(** The digest function on the standard test vectors. *)
Lemma sha256_vectors :
  SHA256.hexdigest "" = "e3b0c44298fc1c149afbf4c8996fb92427ae41e4649b934ca495991b7852b855" /\
  SHA256.hexdigest "abc" = "ba7816bf8f01cfea414140de5dae2223b00361a396177a9cb410ff61f20015ad" /\
  SHA256.hexdigest "abcdbcdecdefdefgefghfghighijhijkijkljklmklmnlmnomnopnopq"
    = "248d6a61d20638b8e5c026930c3e6039a33ce45964ff2167f6ecedd419db06c1".
Proof. vm_compute. repeat split. Qed.

(** C8 as the claim states it fails: the digest of the salt, a newline and
    the payload is not the digest that [test_generate_hash] expects of
    [generate_hash_str] for the first patient. *)
Lemma hash_is_not_salt_newline_payload :
  salt_newline_payload_digest patient_1 salt_str
    = "27e5df427b08acaecf7bc59d853075727a811edea006546162d03e3f3272a08b" /\
  generate_hash_str patient_1 salt_str
    = "b124335071679e95341b8133669f6ab475f211f3e19d3cf69e7b6f13b0df45d6" /\
  generate_hash_str patient_1 salt_str <> salt_newline_payload_digest patient_1 salt_str.
Proof. vm_compute. split; [ reflexivity | split; [ reflexivity | discriminate ] ]. Qed.

(** C8, amended: [generate_hash_str] is the lowercase hexadecimal SHA-256
    digest of the payload followed by the salt, with no separator; for the
    two patients of [test_generate_hash] it gives the digests expected
    there. *)
Theorem generate_hash_str_digest :
  (forall payload salt,
     generate_hash_str payload salt = SHA256.hexdigest (payload ++ salt)) /\
  generate_hash_str patient_1 salt_str
    = "b124335071679e95341b8133669f6ab475f211f3e19d3cf69e7b6f13b0df45d6" /\
  generate_hash_str patient_2 salt_str
    = "102818c623290c24069beb721c6eb465d281b3b67ecfb6aef924d14affa117b9".
Proof.
  split; [ reflexivity | ].
  split; vm_compute; reflexivity.
Qed.

(** ** [score_linkage_vs_truth] *)

(** C9: on the 12 records and the two maps of the test, the sensitivity is
    1.0, the specificity 0.926, the positive predictive value 0.75 and F1
    0.857 (in thousandths: 1000, 926, 750 and 857). *)
Theorem score_linkage_vs_truth_test :
  score_linkage_vs_truth test_matches test_true_matches 12
    = Returns (Scores 1000 926 750 857).
Proof. vm_compute. reflexivity. Qed.

(** ** JSON text *)

Example json_loads_examples :
  Json.loads "[1, 2.5e3, -0.75, true, null]"
    = Some (JList [JNum 1 0; JNum 25 2; JNum (-75) (-2); JBool true; JNull]) /\
  Json.loads (Json.dumps (JDict [("a", JList [JStr "x"; JNum 9 (-1)]); ("b", JDict [])]))
    = Some (JDict [("a", JList [JStr "x"; JNum 9 (-1)]); ("b", JDict [])]) /\
  Json.dumps (JDict [("a", JList [JNum 9 (-1); JNull])]) =
    String "{" (String Json.dquote ("a" ++ String Json.dquote ": [9e-1, null]}")) /\
  Json.loads "this is a random string that is not in json format" = None /\
  Json.loads "01" = None /\ Json.loads "[1,]" = None /\ Json.loads "1 2" = None.
Proof. vm_compute. repeat split. Qed.

#[local] Arguments String.append !_ _ / : simpl nomatch.

Lemma str_length_app (a b : string) :
  String.length (a ++ b) = String.length a + String.length b.
Proof. induction a as [ | c a IH ]; simpl; [ reflexivity | f_equal; exact IH ]. Qed.

Lemma str_app_assoc (a b c : string) : (a ++ b) ++ c = a ++ (b ++ c).
Proof. induction a as [ | x a IH ]; simpl; [ reflexivity | f_equal; exact IH ]. Qed.

Section Json_numbers.
Import Decimal.

Lemma take_uint_stop rest : Json.no_digit rest -> Json.take_uint rest = (Nil, rest).
Proof. destruct rest as [ | c r ]; simpl; [ reflexivity | intros ->; reflexivity ]. Qed.

Lemma take_uint_digits d rest :
  Json.no_digit rest -> Json.take_uint (NilEmpty.string_of_uint d ++ rest) = (d, rest).
Proof.
  intros H. induction d; simpl; rewrite ?IHd; auto using take_uint_stop.
Qed.

Lemma to_uint_canonical p : unorm (Pos.to_uint p) = Pos.to_uint p.
Proof.
  rewrite <- DecimalPos.Unsigned.to_of, DecimalPos.Unsigned.of_to. reflexivity.
Qed.

Lemma uint_beq_refl d : uint_beq d d = true.
Proof. induction d; simpl; auto. Qed.

Lemma of_uint_to_uint p : Z.of_uint (Pos.to_uint p) = Zpos p.
Proof. unfold Z.of_uint. rewrite DecimalPos.Unsigned.of_to. reflexivity. Qed.

(** The digits of a positive number: at least one, and the first one is a
    digit. *)
Lemma digits_head p rest :
  exists c r, NilEmpty.string_of_uint (Pos.to_uint p) ++ rest = String c r /\
              Json.digit_of c <> None.
Proof.
  pose proof (DecimalPos.Unsigned.to_uint_nonnil p) as Hn.
  destruct (Pos.to_uint p); [ congruence | .. ]; simpl; eexists _, _; (split; [ reflexivity | ]);
    discriminate.
Qed.

Lemma digit_of_cases c :
  Json.digit_of c <> None ->
  Ascii.eqb c "-" = false /\ Ascii.eqb c "+" = false /\ Ascii.eqb c "." = false /\
  Ascii.eqb c "e" = false /\ Ascii.eqb c "E" = false /\ Json.opens c = true /\
  Ascii.eqb c "n" = false /\ Ascii.eqb c "t" = false /\ Ascii.eqb c "f" = false /\
  Ascii.eqb c Json.dquote = false /\ Ascii.eqb c "[" = false /\ Ascii.eqb c "{" = false.
Proof.
  each_char c; vm_compute; intros H;
    first [ congruence | repeat split ].
Qed.

Lemma stops_cases rest :
  Json.stops rest = true ->
  Json.no_digit rest /\ Json.fraction rest = Some (Nil, rest) /\ Json.exponent rest = Some (0%Z, rest).
Proof.
  destruct rest as [ | c r ]; [ repeat split | ].
  unfold Json.stops, Json.no_digit, Json.fraction, Json.exponent.
  each_char c; vm_compute; intros H;
    first [ discriminate | repeat split ].
Qed.

Lemma exponent_dumps e rest :
  Json.stops rest = true ->
  let tail := (if (e =? 0)%Z then "" else String "e" (Json.print_int e)) ++ rest in
  Json.no_digit tail /\ Json.fraction tail = Some (Nil, tail) /\
  Json.exponent tail = Some (e, rest).
Proof.
  intros Hs. destruct (stops_cases rest Hs) as (Hd & Hf & He).
  destruct e as [ | p | p ]; simpl.
  - auto.
  - split; [ reflexivity | split; [ reflexivity | ] ].
    unfold Json.exponent, Json.print_int. simpl.
    destruct (digits_head p rest) as (c & r & Hc & Hdig). rewrite Hc.
    destruct (digit_of_cases c Hdig) as (-> & -> & _).
    rewrite <- Hc, (take_uint_digits _ _ Hd).
    pose proof (DecimalPos.Unsigned.to_uint_nonnil p) as Hn.
    pose proof (of_uint_to_uint p) as Hz.
    destruct (Pos.to_uint p); [ congruence | .. ]; simpl; rewrite Hz; reflexivity.
  - split; [ reflexivity | split; [ reflexivity | ] ].
    unfold Json.exponent, Json.print_int. simpl.
    rewrite (take_uint_digits _ _ Hd).
    pose proof (DecimalPos.Unsigned.to_uint_nonnil p) as Hn.
    pose proof (of_uint_to_uint p) as Hz.
    destruct (Pos.to_uint p); [ congruence | .. ]; simpl; rewrite Hz; reflexivity.
Qed.

Lemma parse_number_dumps m e rest :
  Json.stops rest = true ->
  Json.parse_number (Json.dumps_number m e ++ rest) = Some (m, e, rest).
Proof.
  intros Hs. unfold Json.dumps_number. rewrite str_app_assoc.
  destruct (exponent_dumps e rest Hs) as (Hd & Hf & He).
  set (tail := (if (e =? 0)%Z then "" else String "e" (Json.print_int e)) ++ rest) in *.
  unfold Json.parse_number, Json.print_int.
  destruct m as [ | p | p ]; simpl.
  - rewrite (take_uint_stop _ Hd). simpl. rewrite Hf, He. simpl.
    rewrite Z.sub_0_r. reflexivity.
  - destruct (digits_head p tail) as (c & r & Hc & Hdig). rewrite Hc.
    destruct (digit_of_cases c Hdig) as (-> & _).
    rewrite <- Hc, (take_uint_digits _ _ Hd), to_uint_canonical, uint_beq_refl. simpl.
    rewrite Hf, He, DecimalFacts.app_nil_r, of_uint_to_uint. simpl.
    rewrite Z.sub_0_r. reflexivity.
  - rewrite (take_uint_digits _ _ Hd), to_uint_canonical, uint_beq_refl. simpl.
    rewrite Hf, He, DecimalFacts.app_nil_r, of_uint_to_uint. simpl.
    rewrite Z.sub_0_r. reflexivity.
Qed.

End Json_numbers.

(** An escaped character reads back as the character, and never starts
    with the quote. *)
Lemma read_char_escape c rest :
  exists c0 r0, Json.escape_char c ++ rest = String c0 r0 /\
                Ascii.eqb c0 Json.dquote = false /\
                Json.read_char (String c0 r0) = Some (c, rest).
Proof.
  each_char c;
    eexists _, _; (split; [ reflexivity | split; reflexivity ]).
Qed.

Lemma escape_char_length c : 1 <= String.length (Json.escape_char c).
Proof. each_char c; vm_compute; lia. Qed.

Lemma parse_chars_escape s rest fuel :
  String.length (Json.escape s) < fuel ->
  Json.parse_chars fuel (Json.escape s ++ String Json.dquote rest) = Some (s, rest).
Proof.
  revert fuel. induction s as [ | c s IH ]; intros fuel Hf.
  - destruct fuel; [ lia | ]. simpl. reflexivity.
  - destruct fuel as [ | fuel ]; [ lia | ].
    simpl Json.escape in *. rewrite str_length_app in Hf.
    pose proof (escape_char_length c) as Hc.
    rewrite str_app_assoc.
    destruct (read_char_escape c (Json.escape s ++ String Json.dquote rest))
      as (c0 & r0 & -> & Hq & Hr).
    cbn [Json.parse_chars]. rewrite Hq, Hr, IH by lia. reflexivity.
Qed.

Lemma dumps_string_length s :
  String.length (Json.dumps_string s) = String.length (Json.escape s) + 2.
Proof. unfold Json.dumps_string. simpl. rewrite str_length_app. simpl. lia. Qed.

Lemma opens_cases c :
  Json.opens c = true ->
  Json.is_ws c = false /\ Ascii.eqb c "," = false /\ Ascii.eqb c "]" = false /\
  Ascii.eqb c "}" = false /\ Ascii.eqb c ":" = false.
Proof.
  unfold Json.opens. intros H. apply negb_true_iff in H.
  do 4 (apply orb_false_iff in H as [H ?]). repeat split; assumption.
Qed.

Lemma skip_ws_opens c r : Json.opens c = true -> Json.skip_ws (String c r) = String c r.
Proof. intros H. apply opens_cases in H as (H & _). simpl. rewrite H. reflexivity. Qed.

(** The first character of a printed number. *)
Lemma number_head m e rest :
  exists c r, Json.dumps_number m e ++ rest = String c r /\
    Json.opens c = true /\
    Ascii.eqb c "n" = false /\ Ascii.eqb c "t" = false /\ Ascii.eqb c "f" = false /\
    Ascii.eqb c Json.dquote = false /\ Ascii.eqb c "[" = false /\ Ascii.eqb c "{" = false.
Proof.
  unfold Json.dumps_number, Json.print_int. rewrite str_app_assoc.
  destruct m as [ | p | p ]; simpl.
  - eexists _, _. split; [ reflexivity | repeat split ].
  - destruct (digits_head p
        ((if (e =? 0)%Z then "" else String "e" (NilEmpty.string_of_int (Z.to_int e))) ++ rest))
      as (c & r & -> & Hd).
    exists c, r. split; [ reflexivity | ].
    destruct (digit_of_cases c Hd) as (_ & _ & _ & _ & _ & H). exact H.
  - eexists _, _. split; [ reflexivity | repeat split ].
Qed.

(** The first character of a printed value. *)
Lemma dumps_head j rest :
  exists c r, Json.dumps j ++ rest = String c r /\ Json.opens c = true.
Proof.
  destruct j as [ | [ | ] | m e | s | l | d ]; simpl;
    try (eexists _, _; split; [ reflexivity | reflexivity ]).
  destruct (number_head m e rest) as (c & r & H & Ho & _). eauto.
Qed.

Lemma join_cons sep p ps tail :
  Json.join sep (p :: ps) ++ tail
  = p ++ match ps with [] => tail | _ => sep ++ Json.join sep ps ++ tail end.
Proof.
  destruct ps as [ | q ps ]; [ reflexivity | ].
  change (Json.join sep (p :: q :: ps)) with (p ++ sep ++ Json.join sep (q :: ps)).
  rewrite !str_app_assoc. reflexivity.
Qed.

Lemma join_cons_length sep p ps :
  String.length (Json.join sep (p :: ps))
  = String.length p
    + match ps with [] => 0 | _ => String.length sep + String.length (Json.join sep ps) end.
Proof.
  destruct ps as [ | q ps ]; [ simpl; lia | ].
  change (Json.join sep (p :: q :: ps)) with (p ++ sep ++ Json.join sep (q :: ps)).
  rewrite !str_length_app. reflexivity.
Qed.

Lemma parse_value_space fuel s :
  Json.parse_value fuel (String " " s) = Json.parse_value fuel s.
Proof. destruct fuel; reflexivity. Qed.

Lemma parse_members_space fuel s :
  Json.parse_members fuel (String " " s) = Json.parse_members fuel s.
Proof. destruct fuel; reflexivity. Qed.

Lemma parse_elements_space fuel s :
  Json.parse_elements fuel (String " " s) = Json.parse_elements fuel s.
Proof.
  destruct fuel; [ reflexivity | ]. cbn [Json.parse_elements].
  rewrite parse_value_space. reflexivity.
Qed.

#[local] Arguments String.append : simpl never.

Lemma str_app_cons c (a b : string) : String c a ++ b = String c (a ++ b).
Proof. reflexivity. Qed.

Lemma str_app_nil (b : string) : "" ++ b = b.
Proof. reflexivity. Qed.

Lemma skip_ws_other c r : Json.is_ws c = false -> Json.skip_ws (String c r) = String c r.
Proof. intros H. simpl. rewrite H. reflexivity. Qed.

(** One step of each parser, on a text whose head is known. *)
Lemma parse_elements_step fuel s :
  Json.parse_elements (S fuel) s =
  match Json.parse_value fuel s with
  | None => None
  | Some (v, r) =>
      match Json.skip_ws r with
      | EmptyString => None
      | String c r' =>
          if Ascii.eqb c "," then
            match Json.parse_elements fuel r' with
            | Some (l, r'') => Some (v :: l, r'')
            | None => None
            end
          else if Ascii.eqb c "]" then Some ([v], r')
          else None
      end
  end.
Proof. reflexivity. Qed.

Lemma parse_members_step fuel k tail :
  String.length (Json.escape k) < fuel ->
  Json.parse_members (S fuel) (Json.dumps_string k ++ String ":" tail) =
  match Json.parse_value fuel tail with
  | None => None
  | Some (v, r3) =>
      match Json.skip_ws r3 with
      | EmptyString => None
      | String c3 r4 =>
          if Ascii.eqb c3 "," then
            match Json.parse_members fuel r4 with
            | Some (d, r5) => Some ((k, v) :: d, r5)
            | None => None
            end
          else if Ascii.eqb c3 "}" then Some ([(k, v)], r4)
          else None
      end
  end.
Proof.
  intros Hf. unfold Json.dumps_string.
  rewrite str_app_cons, str_app_assoc, str_app_cons, str_app_nil.
  cbn [Json.parse_members]. rewrite skip_ws_other by reflexivity.
  rewrite Ascii.eqb_refl, parse_chars_escape by exact Hf.
  rewrite skip_ws_other by reflexivity. reflexivity.
Qed.

Lemma parse_elements_dumps l :
  Forall Json.reads_back l -> l <> [] ->
  forall fuel rest, String.length (Json.join ", " (map Json.dumps l)) < fuel ->
    Json.parse_elements fuel (Json.join ", " (map Json.dumps l) ++ String "]" rest)
    = Some (l, rest).
Proof.
  induction 1 as [ | x l Hx Hl IH ]; [ congruence | ]. intros _ fuel rest Hf.
  destruct fuel as [ | fuel ]; [ lia | ].
  cbn [map] in *. rewrite join_cons. rewrite join_cons_length in Hf.
  rewrite parse_elements_step. unfold Json.reads_back in Hx.
  destruct l as [ | y l ]; cbn [map] in *; cbv iota in *.
  - rewrite (Hx fuel (String "]" rest)) by (reflexivity || lia).
    rewrite skip_ws_other by reflexivity. reflexivity.
  - change (String.length ", ") with 2 in Hf.
    rewrite (Hx fuel) by (reflexivity || lia).
    rewrite !str_app_cons, str_app_nil, skip_ws_other by reflexivity.
    simpl (Ascii.eqb _ _). cbv iota.
    rewrite parse_elements_space, IH by (congruence || lia). reflexivity.
Qed.

Lemma parse_members_dumps d :
  Forall (fun kv => Json.reads_back (snd kv)) d -> d <> [] ->
  forall fuel rest,
    String.length (Json.join ", "
      (map (fun kv => Json.dumps_string (fst kv) ++ ": " ++ Json.dumps (snd kv)) d)) < fuel ->
    Json.parse_members fuel
      (Json.join ", "
         (map (fun kv => Json.dumps_string (fst kv) ++ ": " ++ Json.dumps (snd kv)) d)
       ++ String "}" rest)
    = Some (d, rest).
Proof.
  induction 1 as [ | [k x] d Hx Hd IH ]; [ congruence | ]. intros _ fuel rest Hf.
  destruct fuel as [ | fuel ]; [ lia | ].
  cbn [map fst snd] in *. rewrite join_cons. rewrite join_cons_length in Hf.
  rewrite !str_length_app, dumps_string_length in Hf.
  change (String.length ", ") with 2 in Hf. change (String.length ": ") with 2 in Hf.
  rewrite !str_app_assoc, !str_app_cons, str_app_nil.
  rewrite parse_members_step, parse_value_space by lia.
  unfold Json.reads_back in Hx.
  destruct d as [ | kv d ]; cbn [map] in *; cbv iota in *.
  - rewrite (Hx fuel (String "}" rest)) by (reflexivity || lia).
    rewrite skip_ws_other by reflexivity. reflexivity.
  - rewrite (Hx fuel) by (reflexivity || lia).
    rewrite !str_app_cons, str_app_nil, skip_ws_other by reflexivity.
    simpl (Ascii.eqb _ _). cbv iota.
    rewrite parse_members_space, IH by (congruence || lia). reflexivity.
Qed.


Lemma str_app_empty (s : string) : s ++ "" = s.
Proof. induction s as [ | c s IHs ]; [ reflexivity | rewrite str_app_cons, IHs; reflexivity ]. Qed.

Lemma dumps_nonempty j : 1 <= String.length (Json.dumps j).
Proof.
  destruct (dumps_head j "") as (c & r & H & _). rewrite str_app_empty in H.
  rewrite H. simpl. lia.
Qed.

(** A printed value reads back, whatever follows it inside a document. *)
Lemma parse_value_dumps j :
  forall fuel rest, Json.stops rest = true -> String.length (Json.dumps j) <= fuel ->
    Json.parse_value fuel (Json.dumps j ++ rest) = Some (j, rest).
Proof.
  induction j as [ | b | m e | s | l IH | d IH ] using json_ind'; intros fuel rest Hs Hf.
  - destruct fuel; [ simpl in Hf; lia | reflexivity ].
  - destruct fuel; [ destruct b; simpl in Hf; lia | destruct b; reflexivity ].
  - destruct (number_head m e rest) as (c & r & Hc & Ho & Hn & Ht & Hfa & Hq & Hl & Hd).
    destruct fuel as [ | fuel ].
    { pose proof (dumps_nonempty (JNum m e)). lia. }
    cbn [Json.dumps]. rewrite Hc. cbn [Json.parse_value].
    rewrite (skip_ws_opens _ _ Ho), Hn, Ht, Hfa, Hq, Hl, Hd, <- Hc.
    rewrite (parse_number_dumps _ _ _ Hs). reflexivity.
  - cbn [Json.dumps] in *. rewrite dumps_string_length in Hf.
    destruct fuel as [ | fuel ]; [ lia | ].
    unfold Json.dumps_string. rewrite str_app_cons, str_app_assoc, str_app_cons, str_app_nil.
    cbn [Json.parse_value]. rewrite skip_ws_other by reflexivity.
    simpl (Ascii.eqb Json.dquote _). cbv iota.
    rewrite parse_chars_escape by lia. reflexivity.
  - cbn [Json.dumps] in *. simpl String.length in Hf. rewrite str_length_app in Hf.
    change (String.length "]") with 1 in Hf.
    destruct fuel as [ | fuel ]; [ lia | ].
    rewrite str_app_cons, str_app_assoc, str_app_cons, str_app_nil.
    cbn [Json.parse_value]. rewrite skip_ws_other by reflexivity.
    simpl (Ascii.eqb "[" _). cbv iota.
    destruct l as [ | x l ].
    + reflexivity.
    + destruct (dumps_head x
        (match map Json.dumps l with
         | [] => String "]" rest
         | _ => ", " ++ Json.join ", " (map Json.dumps l) ++ String "]" rest
         end)) as (c & r & Hc & Ho).
      pose proof (parse_elements_dumps (x :: l) IH ltac:(congruence) fuel rest ltac:(lia)) as Hp.
      cbn [map] in *. rewrite join_cons in *. rewrite Hc in *.
      rewrite (skip_ws_opens _ _ Ho).
      destruct (opens_cases _ Ho) as (_ & _ & -> & _). rewrite Hp. reflexivity.
  - cbn [Json.dumps] in *. simpl String.length in Hf. rewrite str_length_app in Hf.
    change (String.length "}") with 1 in Hf.
    destruct fuel as [ | fuel ]; [ lia | ].
    rewrite str_app_cons, str_app_assoc, str_app_cons, str_app_nil.
    cbn [Json.parse_value]. rewrite skip_ws_other by reflexivity.
    simpl (Ascii.eqb "{" _). cbv iota.
    destruct d as [ | [k x] d ].
    + reflexivity.
    + pose proof (parse_members_dumps ((k, x) :: d) IH ltac:(congruence) fuel rest ltac:(lia)) as Hp.
      set (text := Json.join ", " _ ++ String "}" rest) in *.
      assert (Hhead : exists r, text = String Json.dquote r).
      { subst text. cbn [map fst snd]. rewrite join_cons. unfold Json.dumps_string at 1.
        rewrite !str_app_cons. eauto. }
      destruct Hhead as (r & Hr).
      assert (Hsk : Json.skip_ws text = String Json.dquote r) by (rewrite Hr; reflexivity).
      rewrite Hsk. simpl (Ascii.eqb Json.dquote _). cbv iota. rewrite Hp. reflexivity.
Qed.

(** Reading what was written gives the value back. *)
Lemma loads_dumps j : Json.loads (Json.dumps j) = Some j.
Proof.
  unfold Json.loads.
  pose proof (parse_value_dumps j (S (String.length (Json.dumps j))) "" eq_refl) as H.
  rewrite str_app_empty in H. rewrite H by lia. reflexivity.
Qed.

(** ** Algorithm configurations on disk *)

Section Config_facts.
Import LinkageConfig.

Lemma funcs_of_items_written fs :
  funcs_of_items (map (fun kf => (fst kf, JStr (func_to_str (snd kf)))) fs)
  = Some (map (fun kf => (fst kf, Ident (func_to_str (snd kf)))) fs).
Proof.
  induction fs as [ | [k f] fs IH ]; [ reflexivity | ].
  cbn [map fst snd funcs_of_items]. rewrite IH. reflexivity.
Qed.

Lemma pass_of_json_written p : pass_of_json (pass_to_json p) = Some (in_string_form p).
Proof.
  destruct p as [fs bs mr [[m e] | ] [kw | ]]; unfold pass_to_json, in_string_form;
    cbn [funcs blocks matching_rule cluster_ratio kwargs app pass_of_json];
    cbn [item find fst snd String.eqb Ascii.eqb Bool.eqb]; cbn;
    rewrite funcs_of_items_written; reflexivity.
Qed.

Lemma passes_of_json_written a :
  passes_of_json (map pass_to_json a) = Some (map in_string_form a).
Proof.
  induction a as [ | p a IH ]; [ reflexivity | ].
  cbn [map passes_of_json]. rewrite pass_of_json_written, IH. reflexivity.
Qed.

Lemma known_in_string_form registered p :
  known registered (in_string_form p) = known registered p.
Proof.
  unfold known, in_string_form. cbn [funcs matching_rule]. f_equal.
  induction (funcs p) as [ | kf fs IH ]; [ reflexivity | ].
  cbn [map forallb fst snd]. rewrite IH. reflexivity.
Qed.

Lemma in_string_form_strings p : all_strings p = true -> in_string_form p = p.
Proof.
  destruct p as [fs bs mr cr kw]. unfold all_strings, in_string_form.
  cbn [funcs blocks matching_rule cluster_ratio kwargs].
  intros H. apply andb_true_iff in H as [Hfs Hmr]. f_equal.
  - induction fs as [ | [k f] fs IH ]; [ reflexivity | ].
    cbn [forallb snd] in Hfs. apply andb_true_iff in Hfs as [Hf Hfs].
    cbn [map fst snd]. rewrite (IH Hfs). destruct f; [ discriminate | reflexivity ].
  - destruct mr; [ discriminate | reflexivity ].
Qed.

Lemma func_to_str_string_form f : func_to_str f = string_form f.
Proof. destruct f; reflexivity. Qed.

(** What the writer writes is what the round trip is to give. *)
Lemma in_string_form_read_back p : in_string_form p = read_back p.
Proof.
  unfold in_string_form, read_back, func_to_str, string_form, dotted_path.
  reflexivity.
Qed.

Lemma written_read_back a : map in_string_form a = map read_back a.
Proof. apply map_ext, in_string_form_read_back. Qed.

Lemma forallb_known_written registered a :
  forallb (known registered) (map in_string_form a) = forallb (known registered) a.
Proof.
  induction a as [ | p a IH ]; [ reflexivity | ].
  cbn [map forallb]. rewrite known_in_string_form, IH. reflexivity.
Qed.

Lemma forallb_mapped {A B} (f : B -> bool) (g : A -> B) l :
  forallb f (map g l) = forallb (fun x => f (g x)) l.
Proof. induction l as [ | x l IH ]; [ reflexivity | ]. cbn [map forallb]. rewrite IH. reflexivity. Qed.

(** The loader's check of the passes is a check of their identifiers. *)
Lemma known_identifiers registered a :
  forallb (known registered) a = forallb registered (identifiers a).
Proof.
  unfold identifiers. induction a as [ | p a IH ]; [ reflexivity | ].
  cbn [map concat forallb]. rewrite forallb_app, forallb_app, <- IH.
  apply (f_equal (fun b => b && forallb (known registered) a)).
  unfold known. rewrite forallb_mapped. cbn [forallb]. rewrite andb_true_r.
  rewrite func_to_str_string_form.
  apply (f_equal (fun b => b && registered (string_form (matching_rule p)))).
  induction (funcs p) as [ | kf fs IHfs ]; [ reflexivity | ].
  cbn [forallb]. rewrite IHfs, func_to_str_string_form. reflexivity.
Qed.

Lemma read_back_all_strings a : forallb all_strings (map read_back a) = true.
Proof.
  induction a as [ | p a IH ]; [ reflexivity | ].
  cbn [map forallb]. rewrite IH, andb_true_r.
  unfold all_strings, read_back. cbn [funcs matching_rule is_string].
  rewrite andb_true_r. induction (funcs p) as [ | kf fs IHfs ];
    [ reflexivity | exact IHfs ].
Qed.

Lemma read_back_strings a : forallb all_strings a = true -> map read_back a = a.
Proof.
  induction a as [ | p a IH ]; [ reflexivity | ].
  cbn [map forallb]. intros H. apply andb_true_iff in H as [Hp Ha].
  rewrite <- in_string_form_read_back, (in_string_form_strings p Hp), (IH Ha). reflexivity.
Qed.

End Config_facts.

(** What the loader gives for a file that the writer wrote. *)
Lemma read_after_write (registered : string -> bool)
    (a : list LinkageConfig.pass) (f : string) (files : gmap string string) :
  LinkageConfig.read_linkage_config registered
    (LinkageConfig.write_linkage_config a f files) f
  = if forallb registered (LinkageConfig.identifiers a)
    then Returns (map LinkageConfig.read_back a)
    else Raises InvalidConfig.
Proof.
  unfold LinkageConfig.read_linkage_config, LinkageConfig.write_linkage_config.
  rewrite lookup_insert_eq, loads_dumps, passes_of_json_written.
  rewrite forallb_known_written, known_identifiers, written_read_back. reflexivity.
Qed.




(** C7: [read_linkage_config] raises [FileNotFoundError] when there is no
    file at the path, and [JSONDecodeError] when the file is there and its
    text is not JSON; it returns no value in either case. *)
Theorem read_linkage_config_errors (registered : string -> bool)
    (files : gmap string string) (config_file : string) :
  (files !! config_file = None ->
   LinkageConfig.read_linkage_config registered files config_file = Raises FileNotFoundError) /\
  (forall text, files !! config_file = Some text -> Json.loads text = None ->
   LinkageConfig.read_linkage_config registered files config_file = Raises JSONDecodeError).
Proof.
  unfold LinkageConfig.read_linkage_config. split.
  - intros ->. reflexivity.
  - intros text -> ->. reflexivity.
Qed.

(** The two errors of [test_read_algo_errors]. *)
Lemma read_linkage_config_errors_witness :
  LinkageConfig.read_linkage_config LinkageConfig.in_library LinkageConfig.test_files
    "invalid.json" = Raises FileNotFoundError /\
  Json.loads LinkageConfig.not_json = None /\
  LinkageConfig.read_linkage_config LinkageConfig.in_library LinkageConfig.test_files
    "not_valid_json_test.json" = Raises JSONDecodeError.
Proof.
  split; [ | split ].
  - apply (proj1 (read_linkage_config_errors LinkageConfig.in_library
                    LinkageConfig.test_files "invalid.json")).
    reflexivity.
  - reflexivity.
  - apply (proj2 (read_linkage_config_errors LinkageConfig.in_library
                    LinkageConfig.test_files "not_valid_json_test.json")
             LinkageConfig.not_json); reflexivity.
Defined.

(** ** More on [Patient._scrub_empty] *)

Lemma is_empty_not_hollow x :
  Patient.is_empty x = true -> hollow x || has_hollow x = false.
Proof. destruct x as [ | | | | [ | ] | [ | ] ]; simpl; congruence. Qed.

(** A kept value comes out empty exactly when it was hollow. *)
Lemma is_empty_scrub x :
  Patient.is_empty x = false -> Patient.is_empty (Patient._scrub_empty x) = hollow x.
Proof.
  destruct x as [ | b | m e | s | l | d ]; try reflexivity; try discriminate.
  - destruct l as [ | x l ]; [ discriminate | ]. intros _.
    cbn [Patient._scrub_empty hollow]. induction (x :: l) as [ | y l' IH ]; [ reflexivity | ].
    cbn [omap list_omap forallb]. destruct (Patient.is_empty y); [ exact IH | reflexivity ].
  - destruct d as [ | kv d ]; [ discriminate | ]. intros _.
    cbn [Patient._scrub_empty hollow]. induction (kv :: d) as [ | y d' IH ]; [ reflexivity | ].
    cbn [omap list_omap forallb]. destruct (Patient.is_empty (snd y)); [ exact IH | reflexivity ].
Qed.

(** What one pass leaves empty inside its result is what was hollow inside
    its argument. *)
Lemma has_empty_scrub v : has_empty (Patient._scrub_empty v) = has_hollow v.
Proof.
  induction v as [ | b | m e | s | l IH | d IH ] using json_ind'; try reflexivity.
  - cbn [Patient._scrub_empty has_empty has_hollow].
    induction IH as [ | x l Hx _ IHl ]; [ reflexivity | ].
    cbn [omap list_omap existsb]. destruct (Patient.is_empty x) eqn:Hex.
    + rewrite (is_empty_not_hollow x Hex). exact IHl.
    + cbn [existsb]. rewrite (is_empty_scrub x Hex), Hx. f_equal. exact IHl.
  - cbn [Patient._scrub_empty has_empty has_hollow].
    induction IH as [ | [k x] d Hx _ IHd ]; [ reflexivity | ].
    cbn [omap list_omap existsb fst snd] in *. destruct (Patient.is_empty x) eqn:Hex.
    + rewrite (is_empty_not_hollow x Hex). exact IHd.
    + cbn [existsb snd]. rewrite (is_empty_scrub x Hex), Hx. f_equal. exact IHd.
Qed.

Lemma scrub_list_length (l : list json) :
  length (omap (fun v => if Patient.is_empty v then None
                         else Some (Patient._scrub_empty v)) l) <= length l.
Proof.
  induction l as [ | x l IH ]; [ reflexivity | ].
  cbn [omap list_omap]. destruct (Patient.is_empty x); simpl; lia.
Qed.

Lemma scrub_dict_length (d : list (string * json)) :
  length (omap (fun kv : string * json =>
                  if Patient.is_empty (snd kv) then None
                  else Some (fst kv, Patient._scrub_empty (snd kv))) d) <= length d.
Proof.
  induction d as [ | x d IH ]; [ reflexivity | ].
  cbn [omap list_omap]. destruct (Patient.is_empty (snd x)); simpl; lia.
Qed.

(** A value that a pass leaves as it is has nothing empty inside. *)
Lemma scrub_empty_fixed_clean v : Patient._scrub_empty v = v -> has_empty v = false.
Proof.
  induction v as [ | b | m e | s | l IH | d IH ] using json_ind'; try reflexivity.
  - cbn [Patient._scrub_empty has_empty]. intros [= H].
    induction IH as [ | x l Hx _ IHl ]; [ reflexivity | ].
    cbn [omap list_omap existsb] in *. destruct (Patient.is_empty x) eqn:Hex.
    + pose proof (scrub_list_length l) as Hlen. apply (f_equal length) in H.
      simpl in H. lia.
    + injection H as Hx' Hl'. rewrite (Hx Hx'), (IHl Hl'). reflexivity.
  - cbn [Patient._scrub_empty has_empty]. intros [= H].
    induction IH as [ | [k x] d Hx _ IHd ]; [ reflexivity | ].
    cbn [omap list_omap existsb fst snd] in *. destruct (Patient.is_empty x) eqn:Hex.
    + pose proof (scrub_dict_length d) as Hlen. apply (f_equal length) in H.
      simpl in H. lia.
    + injection H as Hx' Hd'. rewrite (Hx Hx'), (IHd Hd'). reflexivity.
Qed.

Lemma json_size_pos v : 1 <= json_size v.
Proof. destruct v; simpl; lia. Qed.

(** A pass never grows a value, and it keeps the size only of a value that
    it leaves as it is. *)
Lemma scrub_empty_size v :
  json_size (Patient._scrub_empty v) <= json_size v /\
  (json_size (Patient._scrub_empty v) = json_size v -> Patient._scrub_empty v = v).
Proof.
  induction v as [ | b | m e | s | l IH | d IH ] using json_ind';
    try (split; [ simpl; lia | reflexivity ]).
  - cbn [Patient._scrub_empty json_size].
    enough (H : list_sum (map json_size
                  (omap (fun v => if Patient.is_empty v then None
                                  else Some (Patient._scrub_empty v)) l))
                <= list_sum (map json_size l) /\
                (list_sum (map json_size
                   (omap (fun v => if Patient.is_empty v then None
                                   else Some (Patient._scrub_empty v)) l))
                 = list_sum (map json_size l) ->
                 omap (fun v => if Patient.is_empty v then None
                                else Some (Patient._scrub_empty v)) l = l)).
    { destruct H as [H1 H2]. split; [ lia | ]. intros H. f_equal. apply H2. lia. }
    induction IH as [ | x l [Hx1 Hx2] _ [IHl1 IHl2] ]; [ split; reflexivity | ].
    unfold list_sum in *. cbn [omap list_omap map fold_right] in *. pose proof (json_size_pos x) as Hp.
    destruct (Patient.is_empty x); cbn [map fold_right].
    + split; [ lia | intros H; lia ].
    + split; [ lia | ]. intros H. f_equal; [ apply Hx2 | apply IHl2 ]; lia.
  - cbn [Patient._scrub_empty json_size].
    enough (H : list_sum (map (fun kv => json_size (snd kv))
                  (omap (fun kv : string * json =>
                           if Patient.is_empty (snd kv) then None
                           else Some (fst kv, Patient._scrub_empty (snd kv))) d))
                <= list_sum (map (fun kv => json_size (snd kv)) d) /\
                (list_sum (map (fun kv => json_size (snd kv))
                   (omap (fun kv : string * json =>
                            if Patient.is_empty (snd kv) then None
                            else Some (fst kv, Patient._scrub_empty (snd kv))) d))
                 = list_sum (map (fun kv => json_size (snd kv)) d) ->
                 omap (fun kv : string * json =>
                         if Patient.is_empty (snd kv) then None
                         else Some (fst kv, Patient._scrub_empty (snd kv))) d = d)).
    { destruct H as [H1 H2]. split; [ lia | ]. intros H. f_equal. apply H2. lia. }
    induction IH as [ | [k x] d [Hx1 Hx2] _ [IHd1 IHd2] ]; [ split; reflexivity | ].
    unfold list_sum in *. cbn [omap list_omap map fold_right fst snd] in *. pose proof (json_size_pos x) as Hp.
    destruct (Patient.is_empty x); cbn [map fold_right fst snd].
    + split; [ lia | intros H; lia ].
    + split; [ lia | ]. intros H. f_equal; [ f_equal; apply Hx2 | apply IHd2 ]; lia.
Qed.

(** After as many passes as the value has parts, a further pass changes
    nothing. *)
Lemma scrub_empty_iter_fixed n v :
  json_size v <= n ->
  Patient._scrub_empty (Nat.iter n Patient._scrub_empty v) = Nat.iter n Patient._scrub_empty v.
Proof.
  revert v. induction n as [ | n IH ]; intros v Hn.
  - pose proof (json_size_pos v). lia.
  - rewrite Nat.iter_succ_r.
    destruct (scrub_empty_size v) as [Hle Heq].
    destruct (Nat.eq_dec (json_size (Patient._scrub_empty v)) (json_size v)) as [ He | Hne ].
    + pose proof (Heq He) as Hfix. rewrite Hfix. clear - Hfix.
      induction n as [ | n IHn ]; simpl; [ exact Hfix | rewrite IHn; exact IHn ].
    + apply IH. lia.
Qed.

(** X6: the values that [_scrub_empty] leaves as they are are exactly those
    with no null, no empty list and no empty dict inside. *)
Theorem scrub_empty_fixed_points v :
  Patient._scrub_empty v = v <-> has_empty v = false.
Proof. split; [ apply scrub_empty_fixed_clean | apply scrub_empty_clean ]. Qed.

(** X7: one pass leaves something empty inside its result exactly when its
    argument holds, somewhere inside, a list or dict that is not empty and
    whose items are all null, [[]] or [{}]; a second pass changes the result
    in that case and in no other. *)
Theorem scrub_empty_idempotent_iff v :
  has_empty (Patient._scrub_empty v) = has_hollow v /\
  (Patient._scrub_empty (Patient._scrub_empty v) = Patient._scrub_empty v
   <-> has_hollow v = false).
Proof.
  split; [ apply has_empty_scrub | ].
  rewrite <- has_empty_scrub. split;
    [ apply scrub_empty_fixed_clean | apply scrub_empty_clean ].
Qed.

Lemma iter_fixed {A} (f : A -> A) (x : A) k : f x = x -> Nat.iter k f x = x.
Proof. intros H. induction k as [ | k IH ]; simpl; [ reflexivity | rewrite IH; exact H ]. Qed.

(** X8: a pass never grows a value, and repeating the pass as many times as
    the value has parts reaches a value with nothing empty inside, which any
    further pass leaves as it is. *)
Theorem scrub_empty_converges v k :
  json_size (Patient._scrub_empty v) <= json_size v /\
  has_empty (Nat.iter (json_size v) Patient._scrub_empty v) = false /\
  Nat.iter (json_size v + k) Patient._scrub_empty v
    = Nat.iter (json_size v) Patient._scrub_empty v.
Proof.
  pose proof (scrub_empty_iter_fixed (json_size v) v (Nat.le_refl _)) as Hfix.
  split; [ apply scrub_empty_size | split ].
  - apply scrub_empty_fixed_clean, Hfix.
  - rewrite Nat.add_comm, Nat.iter_add. apply iter_fixed, Hfix.
Qed.

Lemma scalar_kept v :
  is_scalar v = true -> Patient.is_empty v = false /\ Patient._scrub_empty v = v.
Proof. destruct v; simpl; intros H; try discriminate; auto. Qed.


(** The falsy values that are not null stay: only the [None] goes. *)
Example scrub_empty_falsy_values :
  Patient._scrub_empty (JDict falsy_values)
  = JDict [ ("mrn", JStr ""); ("count", JNum 0 0); ("flag", JBool false) ].
Proof. reflexivity. Qed.

(** ** The setter and the getter of [Patient.record] together *)

Lemma scrub_dict_nil (d : list (string * json)) :
  omap (fun kv : string * json =>
          if Patient.is_empty (snd kv) then None
          else Some (fst kv, Patient._scrub_empty (snd kv))) d = []
  <-> forallb (fun kv => Patient.is_empty (snd kv)) d = true.
Proof.
  induction d as [ | kv d IH ]; [ split; reflexivity | ].
  cbn [omap list_omap forallb]. destruct (Patient.is_empty (snd kv)); simpl.
  - exact IH.
  - split; discriminate.
Qed.

(** X10: reading [record] back after setting it.  When every field of the
    dumped record is null, [[]] or [{}] the stored data is [{}] and the
    getter returns [None], not a record; otherwise the stored data is a
    dict that is not empty and the getter builds the record from it. *)
Theorem record_after_set_record {PIIRecord V : Type}
    (PIIRecord_init : list (string * json) -> outcome PIIRecord)
    (model_dump_json : V -> json) (self : Patient.t) (value : V)
    (d : list (string * json)) :
  model_dump_json value = JDict d ->
  (forallb (fun kv => Patient.is_empty (snd kv)) d = true ->
   Patient.data (Patient.set_record model_dump_json self value) = JDict [] /\
   Patient.record PIIRecord_init (Patient.set_record model_dump_json self value)
     = Returns None) /\
  (forallb (fun kv => Patient.is_empty (snd kv)) d = false ->
   exists d', Patient.data (Patient.set_record model_dump_json self value) = JDict d' /\
              d' <> [] /\
              Patient.record PIIRecord_init (Patient.set_record model_dump_json self value)
                = (r ← PIIRecord_init d'; Returns (Some r))).
Proof.
  intros Hd. unfold Patient.record, Patient.set_record. cbn [Patient.data]. rewrite Hd.
  cbn [Patient._scrub_empty]. split.
  - intros Hall. apply scrub_dict_nil in Hall. rewrite Hall. split; reflexivity.
  - intros Hsome. eexists. split; [ reflexivity | ].
    destruct (omap _ d) as [ | kv d' ] eqn:Ho.
    + apply scrub_dict_nil in Ho. congruence.
    + split; [ discriminate | reflexivity ].
Qed.

(** A record with no field set reads back as [None]; the record of
    [test_field_iter] reads back through the constructor (here the identity
    on dicts). *)
Lemma record_after_set_record_witness :
  let init := fun d : list (string * json) => Returns d in
  let self := Patient.mk 1 1 JNull None None None in
  Patient.record init (Patient.set_record PII.model_dump_json self no_fields) = Returns None /\
  exists d', Patient.data (Patient.set_record PII.model_dump_json self doe_smith) = JDict d' /\
             d' <> [] /\
             Patient.record init (Patient.set_record PII.model_dump_json self doe_smith)
               = Returns (Some d').
Proof.
  cbv zeta. split.
  - apply (proj1 (record_after_set_record (fun d => Returns d) PII.model_dump_json
                    (Patient.mk 1 1 JNull None None None) no_fields _ eq_refl)).
    reflexivity.
  - apply (proj2 (record_after_set_record (fun d => Returns d) PII.model_dump_json
                    (Patient.mk 1 1 JNull None None None) doe_smith _ eq_refl)).
    reflexivity.
Defined.

(** ** More on [BlockingKey.to_value] *)

Lemma cut_short (self : BlockingKey.t) x :
  self = BlockingKey.MRN \/ self = BlockingKey.FIRST_NAME \/ self = BlockingKey.LAST_NAME ->
  String.length (cut self x) <= 4.
Proof.
  intros [ -> | [ -> | -> ] ]; unfold cut;
    auto using str_prefix_length, str_suffix_length.
Qed.

(** X11: [to_value] raises exactly the exception that [field_iter] raises
    for the field of the key, or [RuntimeError] when [field_iter] returns and
    a value is longer than 20 characters once cut; for the MRN and the two
    name keys the second case does not arise. *)
Theorem to_value_raises_iff {PIIRecord : Type}
    (field_iter : PIIRecord -> string -> outcome (list string))
    (self : BlockingKey.t) (record : PIIRecord) (e : exn) :
  (BlockingKey.to_value field_iter self record = Raises e <->
   field_iter record (field_name self) = Raises e \/
   (e = RuntimeError /\
    exists xs, field_iter record (field_name self) = Returns xs /\
               exists x, x ∈ xs /\ 20 < String.length (cut self x))) /\
  (self = BlockingKey.MRN \/ self = BlockingKey.FIRST_NAME \/ self = BlockingKey.LAST_NAME ->
   (BlockingKey.to_value field_iter self record = Raises e <->
    field_iter record (field_name self) = Raises e)).
Proof.
  assert (Hmain : BlockingKey.to_value field_iter self record = Raises e <->
            field_iter record (field_name self) = Raises e \/
            (e = RuntimeError /\
             exists xs, field_iter record (field_name self) = Returns xs /\
                        exists x, x ∈ xs /\ 20 < String.length (cut self x))).
  { unfold BlockingKey.to_value. rewrite derived_spec.
    destruct (field_iter record (field_name self)) as [ xs | e' ]; simpl.
    - destruct (BlockingKey.too_long (list_to_set (cut self <$> xs))) eqn:Ht.
      + apply too_long_true in Ht as (v & Hv & Hlen).
        apply elem_of_list_to_set, list_elem_of_fmap in Hv as (x & -> & Hx).
        split.
        * intros [= <-]. right. split; [ reflexivity | ]. exists xs. split; [ reflexivity | ].
          exists x. split; [ exact Hx | exact Hlen ].
        * intros [ H | [-> _] ]; [ discriminate | reflexivity ].
      + split; [ discriminate | ].
        intros [ H | (_ & xs' & [= <-] & x & Hx & Hlen) ]; [ discriminate | ].
        assert (BlockingKey.too_long (list_to_set (cut self <$> xs)) = true); [ | congruence ].
        apply too_long_true. exists (cut self x). split; [ | exact Hlen ].
        apply elem_of_list_to_set, list_elem_of_fmap. eauto.
    - split.
      + intros [= <-]. left. reflexivity.
      + intros [ [= <-] | (_ & xs & H & _) ]; [ reflexivity | discriminate ]. }
  split; [ exact Hmain | ].
  intros Hkey. rewrite Hmain. split; [ | auto ].
  intros [ H | (_ & xs & _ & x & _ & Hlen) ]; [ exact H | ].
  pose proof (cut_short self x Hkey). lia.
Qed.

Lemma size_list_to_set_le (l : list string) : size (list_to_set l : gset string) <= length l.
Proof.
  induction l as [ | x l IH ]; [ rewrite list_to_set_nil, size_empty; reflexivity | ].
  rewrite list_to_set_cons, size_union_alt, size_singleton.
  pose proof (subseteq_size (list_to_set l ∖ {[x]}) (list_to_set l : gset string)) as Hs.
  assert (Hd : list_to_set l ∖ {[x]} ⊆ (list_to_set l : gset string)).
  { intros y Hy. apply elem_of_difference in Hy. tauto. }
  specialize (Hs Hd). simpl. lia.
Qed.

(** X12: a returned set has at most as many values as [field_iter] yields
    for the field, and it is empty exactly when [field_iter] yields
    nothing. *)
Theorem to_value_size {PIIRecord : Type}
    (field_iter : PIIRecord -> string -> outcome (list string))
    (self : BlockingKey.t) (record : PIIRecord) (vals : gset string) :
  BlockingKey.to_value field_iter self record = Returns vals ->
  exists xs, field_iter record (field_name self) = Returns xs /\
             size vals <= length xs /\ (vals = ∅ <-> xs = []).
Proof.
  intros H. apply to_value_returns in H as [Hd _]. rewrite derived_spec in Hd.
  destruct (field_iter record (field_name self)) as [ xs | e ]; [ | discriminate ].
  simpl in Hd. injection Hd as <-. exists xs. split; [ reflexivity | split ].
  - etransitivity; [ apply size_list_to_set_le | rewrite length_fmap; reflexivity ].
  - split.
    + destruct xs as [ | x xs ]; [ reflexivity | ]. intros Hempty.
      assert (Hin : cut self x ∈ (list_to_set (cut self <$> x :: xs) : gset string))
        by (rewrite fmap_cons, list_to_set_cons; set_solver).
      rewrite Hempty in Hin. set_solver.
    + intros ->. reflexivity.
Qed.

Lemma to_value_size_witness :
  BlockingKey.to_value PII.field_iter BlockingKey.FIRST_NAME jonathans = Returns {[ "Jona" ]} /\
  exists xs, PII.field_iter jonathans "first_name" = Returns xs /\
             size ({[ "Jona" ]} : gset string) <= length xs /\
             (({[ "Jona" ]} : gset string) = ∅ <-> xs = []).
Proof.
  assert (H : BlockingKey.to_value PII.field_iter BlockingKey.FIRST_NAME jonathans
              = Returns {[ "Jona" ]}) by reflexivity.
  split; [ exact H | ].
  exact (to_value_size PII.field_iter BlockingKey.FIRST_NAME jonathans _ H).
Defined.

Lemma str_prefix_min n x : String.length (str_prefix n x) = Nat.min n (String.length x).
Proof.
  revert x. induction n as [ | n IH ]; intros [ | c x ]; simpl; try reflexivity.
  rewrite IH. reflexivity.
Qed.

Lemma str_suffix_min n x : String.length (str_suffix n x) = Nat.min n (String.length x).
Proof. unfold str_suffix. rewrite str_from_length. lia. Qed.

Lemma str_prefix_from n x : str_prefix n x ++ str_from n x = x.
Proof.
  revert x. induction n as [ | n IH ]; intros [ | c x ]; try reflexivity.
  cbn [str_prefix str_from]. rewrite str_app_cons, IH. reflexivity.
Qed.

Lemma str_prefix_all n x : String.length x <= n -> str_prefix n x = x.
Proof.
  revert x. induction n as [ | n IH ]; intros [ | c x ] H; simpl in *; try reflexivity; try lia.
  rewrite IH by lia. reflexivity.
Qed.

Lemma str_suffix_all n x : String.length x <= n -> str_suffix n x = x.
Proof.
  intros H. unfold str_suffix. replace (String.length x - n) with 0 by lia.
  destruct x; reflexivity.
Qed.

(** Cutting a value that is cut already changes nothing. *)
Lemma cut_cut (self : BlockingKey.t) x : cut self (cut self x) = cut self x.
Proof.
  destruct self; unfold cut; try reflexivity.
  - apply str_suffix_all, str_suffix_length.
  - apply str_prefix_all, str_prefix_length.
  - apply str_prefix_all, str_prefix_length.
Qed.

(** X13: every value that [to_value] returns comes from a value of the
    field: its last four characters for the MRN (all of it when it is
    shorter), its first four for the two name keys, the value itself for the
    other keys; cutting a returned value again changes nothing. *)
Theorem to_value_values {PIIRecord : Type}
    (field_iter : PIIRecord -> string -> outcome (list string))
    (self : BlockingKey.t) (record : PIIRecord) (vals : gset string) (v : string) :
  BlockingKey.to_value field_iter self record = Returns vals -> v ∈ vals ->
  cut self v = v /\
  exists xs x, field_iter record (field_name self) = Returns xs /\ x ∈ xs /\
    match self with
    | BlockingKey.MRN =>
        (exists head, x = head ++ v) /\ String.length v = Nat.min 4 (String.length x)
    | BlockingKey.FIRST_NAME | BlockingKey.LAST_NAME =>
        (exists tail, x = v ++ tail) /\ String.length v = Nat.min 4 (String.length x)
    | _ => x = v
    end.
Proof.
  intros H Hv. apply to_value_returns in H as [Hd _].
  destruct (derived_elem _ _ _ _ _ Hd Hv) as (xs & x & Hf & Hx & ->).
  split; [ apply cut_cut | ]. exists xs, x. split; [ exact Hf | split; [ exact Hx | ] ].
  destruct self; unfold cut; try reflexivity.
  - split; [ | apply str_suffix_min ].
    exists (str_prefix (String.length x - 4) x). unfold str_suffix.
    symmetry. apply str_prefix_from.
  - split; [ | apply str_prefix_min ].
    exists (str_from 4 x). symmetry. apply str_prefix_from.
  - split; [ | apply str_prefix_min ].
    exists (str_from 4 x). symmetry. apply str_prefix_from.
Qed.

Lemma to_value_values_witness :
  BlockingKey.to_value PII.field_iter BlockingKey.MRN doe_smith = Returns {[ "3456" ]} /\
  cut BlockingKey.MRN "3456" = "3456" /\
  exists xs x, PII.field_iter doe_smith "mrn" = Returns xs /\ x ∈ xs /\
    (exists head, x = head ++ "3456") /\ String.length "3456" = Nat.min 4 (String.length x).
Proof.
  assert (H : BlockingKey.to_value PII.field_iter BlockingKey.MRN doe_smith
              = Returns {[ "3456" ]}) by reflexivity.
  split; [ exact H | ].
  apply (to_value_values PII.field_iter BlockingKey.MRN doe_smith _ "3456" H).
  apply elem_of_singleton. reflexivity.
Defined.
